(** * Egress agent: policy validation, address resolution, translation
      and admission gate

    A shallow embedding of [egress-agent/src/egress_agent.py] and
    [egress-agent/src/webhook_server.py].  Python values that come out
    of [json.loads] are modelled by the type [json]; Python exceptions
    by the error monad [result]; the resolver's instance attributes by
    the record [AWSServiceResolver], threaded explicitly. *)

From Stdlib Require Import ZArith String Ascii List Bool Lia.
From Stdlib Require Import Floats.SpecFloat.
From stdpp Require Import base option list strings gmap pretty sorting.

Set Warnings "-register-all".
Local Open Scope Z_scope.

(** ** Python values *)

(** The values [json.loads] can produce.  Strings are ASCII text.  A
    dict is an association list in insertion order, its keys distinct;
    lookup takes the first binding of a key. *)
Inductive json : Type :=
| JNull
| JBool (b : bool)
| JInt (z : Z)
| JFloat (f : spec_float)
| JStr (s : string)
| JList (l : list json)
| JObj (kv : list (string * json)).

Module Py.

(** Exceptions, each carrying the text that [str(e)] yields.  All of
    them derive from Python's [Exception]. *)
Inductive exn : Type :=
| AttributeError (msg : string)
| TypeError (msg : string)
| KeyError (msg : string)
| ValueError (msg : string)
| JSONDecodeError (msg : string)
| RequestException (msg : string)
| BadRequest (msg : string).

Definition exn_str (e : exn) : string :=
  match e with
  | AttributeError m | TypeError m | KeyError m | ValueError m
  | JSONDecodeError m | RequestException m | BadRequest m => m
  end.

Inductive result (A : Type) : Type :=
| Ok (a : A)
| Raise (e : exn).
Global Arguments Ok {A} a.
Global Arguments Raise {A} e.

Global Instance result_ret : MRet result := fun A a => Ok a.
Global Instance result_bind : MBind result := fun A B f m =>
  match m with
  | Ok a => f a
  | Raise e => Raise e
  end.

(** [try: body except Exception as e: handler(e)] *)
Definition try_except {A} (body : result A) (handler : exn -> result A) : result A :=
  match body with
  | Ok a => Ok a
  | Raise e => handler e
  end.

(** [type(v).__name__] *)
Definition type_name (v : json) : string :=
  match v with
  | JNull => "NoneType"
  | JBool _ => "bool"
  | JInt _ => "int"
  | JFloat _ => "float"
  | JStr _ => "str"
  | JList _ => "list"
  | JObj _ => "dict"
  end.

Definition no_attribute (v : json) (attr : string) : exn :=
  AttributeError ("'" +:+ type_name v +:+ "' object has no attribute '" +:+ attr +:+ "'").

(** [bool(v)] *)
Definition truthy (v : json) : bool :=
  match v with
  | JNull => false
  | JBool b => b
  | JInt z => negb (z =? 0)
  | JFloat (S754_zero _) => false
  | JFloat _ => true
  | JStr s => negb (String.eqb s EmptyString)
  | JList l => match l with [] => false | _ => true end
  | JObj kv => match kv with [] => false | _ => true end
  end.

Fixpoint dict_get (kv : list (string * json)) (k : string) : option json :=
  match kv with
  | [] => None
  | (k', v) :: rest => if String.eqb k' k then Some v else dict_get rest k
  end.

(** [o.get(k, d)]; only dicts have a [get] attribute. *)
Definition get (o : json) (k : string) (d : json) : result json :=
  match o with
  | JObj kv => Ok (default d (dict_get kv k))
  | _ => Raise (no_attribute o "get")
  end.

(** [o[k]] for a string key [k]. *)
Definition getitem (o : json) (k : string) : result json :=
  match o with
  | JObj kv =>
      match dict_get kv k with
      | Some v => Ok v
      | None => Raise (KeyError ("'" +:+ k +:+ "'"))
      end
  | JStr _ => Raise (TypeError "string indices must be integers, not 'str'")
  | JList _ => Raise (TypeError "list indices must be integers or slices, not str")
  | _ => Raise (TypeError ("'" +:+ type_name o +:+ "' object is not subscriptable"))
  end.

Fixpoint is_prefix (p s : string) : bool :=
  match p, s with
  | EmptyString, _ => true
  | String a p', String b s' => Ascii.eqb a b && is_prefix p' s'
  | String _ _, EmptyString => false
  end.

(** substring test, [p in s] on two strings *)
Fixpoint is_substring (p s : string) : bool :=
  is_prefix p s ||
  match s with
  | EmptyString => false
  | String _ s' => is_substring p s'
  end.

Definition is_str (k : string) (v : json) : bool :=
  match v with
  | JStr s => String.eqb s k
  | _ => false
  end.

(** [k in o] for a string [k]: key membership on a dict, element
    membership on a list, substring test on a string. *)
Definition contains_str (o : json) (k : string) : result bool :=
  match o with
  | JObj kv => Ok (bool_decide (is_Some (dict_get kv k)))
  | JList l => Ok (existsb (is_str k) l)
  | JStr s => Ok (is_substring k s)
  | _ => Raise (TypeError ("argument of type '" +:+ type_name o +:+ "' is not iterable"))
  end.

(** [x in o] for an arbitrary left operand, on a container whose
    elements (list), keys (dict) or characters (string) are all
    strings: a value that is not a string equals none of them, a
    string wants a string on its left, a dict hashes the operand. *)
Definition contains (o : json) (x : json) : result bool :=
  match o, x with
  | JStr _, JStr k | JList _, JStr k | JObj _, JStr k => contains_str o k
  | JStr _, _ =>
      Raise (TypeError ("'in <string>' requires string as left operand, not " +:+ type_name x))
  | JObj _, JList _ | JObj _, JObj _ =>
      Raise (TypeError ("unhashable type: '" +:+ type_name x +:+ "'"))
  | JObj _, _ | JList _, _ => Ok false
  | _, _ => Raise (TypeError ("argument of type '" +:+ type_name o +:+ "' is not iterable"))
  end.

(** [x in S] for a set [S] of strings: the operand is hashed first. *)
Definition in_set (x : json) (S : gset string) : result bool :=
  match x with
  | JStr s => Ok (bool_decide (s ∈ S))
  | JList _ | JObj _ => Raise (TypeError ("unhashable type: '" +:+ type_name x +:+ "'"))
  | _ => Ok false
  end.

Fixpoint chars (s : string) : list string :=
  match s with
  | EmptyString => []
  | String a s' => String a EmptyString :: chars s'
  end.

(** [for x in v]: the elements of a list, the keys of a dict, the
    characters of a string. *)
Definition iter (v : json) : result (list json) :=
  match v with
  | JList l => Ok l
  | JObj kv => Ok (JStr <$> kv.*1)
  | JStr s => Ok (JStr <$> chars s)
  | _ => Raise (TypeError ("'" +:+ type_name v +:+ "' object is not iterable"))
  end.

Definition ascii_lower (a : ascii) : ascii :=
  let n := N_of_ascii a in
  if ((65 <=? n) && (n <=? 90))%N then ascii_of_N (n + 32) else a.

Definition ascii_upper (a : ascii) : ascii :=
  let n := N_of_ascii a in
  if ((97 <=? n) && (n <=? 122))%N then ascii_of_N (n - 32) else a.

Fixpoint str_map (f : ascii -> ascii) (s : string) : string :=
  match s with
  | EmptyString => EmptyString
  | String a s' => String (f a) (str_map f s')
  end.

(** [s.lower()] and [s.upper()] on ASCII text *)
Definition str_lower : string -> string := str_map ascii_lower.
Definition str_upper : string -> string := str_map ascii_upper.

(** [v.lower()]; only strings have the attribute. *)
Definition lower (v : json) : result string :=
  match v with
  | JStr s => Ok (str_lower s)
  | _ => Raise (no_attribute v "lower")
  end.

(** [c.isspace()] on ASCII: tab to carriage return, the four
    separators 28 to 31, and the space *)
Definition is_space (a : ascii) : bool :=
  let n := N_of_ascii a in
  ((9 <=? n) && (n <=? 13) || (28 <=? n) && (n <=? 32))%N.

(** [not s.strip()]: the string has only white space. *)
Fixpoint is_blank (s : string) : bool :=
  match s with
  | EmptyString => true
  | String a s' => is_space a && is_blank s'
  end.

(** [sep.join(l)] on strings *)
Fixpoint join (sep : string) (l : list string) : string :=
  match l with
  | [] => EmptyString
  | [s] => s
  | s :: rest => s +:+ sep +:+ join sep rest
  end.

(** [sorted(l)] on strings *)
Definition sorted (l : list string) : list string := merge_sort String.le l.

(** The functions of Python's library that the agent calls and that
    are not part of the repository. *)
Class Builtins := {
  (** [repr(v)] *)
  repr : json -> string;
  (** [ipaddress.ip_network(v, strict=False)] returns (rather than
      raising [ValueError]) *)
  ip_network_ok : json -> bool;
  (** [json.loads(s)] *)
  json_loads : string -> result json;
}.

(** [str(v)], as an f-string formats a value *)
Definition format `{Builtins} (v : json) : string :=
  match v with
  | JStr s => s
  | _ => repr v
  end.

(** [json.loads(v)] on a value that need not be a string *)
Definition loads `{Builtins} (v : json) : result json :=
  match v with
  | JStr s => json_loads s
  | _ => Raise (TypeError ("the JSON object must be str, bytes or bytearray, not "
                           +:+ type_name v))
  end.

(** [not v.strip()]; only strings have the attribute. *)
Definition strip_is_empty (v : json) : result bool :=
  match v with
  | JStr s => Ok (is_blank s)
  | _ => Raise (no_attribute v "strip")
  end.

End Py.
Import Py.

(** ** PolicyValidator *)

Record ValidationResult := {
  is_valid : bool;
  errors : list string;
}.

Definition VALID_AWS_SERVICES : gset string :=
  {[ "s3"; "rds"; "ec2"; "dynamodb"; "lambda"; "ecs" ]}.
Definition VALID_ACTIONS : gset string := {[ "allow"; "deny" ]}.

Section Validator.
Context `{Builtins}.

Definition destination_msg (index : nat) (what : string) : string :=
  "Destination " +:+ pretty index +:+ ": " +:+ what.

(** [PolicyValidator._validate_destination]: the list [errors] is
    appended to in place; here it is passed in and returned. *)
Definition _validate_destination (dest : json) (index : nat) (errors : list string)
  : result (list string) :=
  name ← get dest "name" JNull;
  let errors :=
    if negb (truthy name)
    then errors ++ [destination_msg index "missing 'name' field"] else errors in
  ports ← get dest "ports" JNull;
  let errors :=
    if negb (truthy ports)
    then errors ++ [destination_msg index "missing 'ports' field"] else errors in
  has_cidr ← contains_str dest "cidr";
  has_aws_service ← contains_str dest "awsService";
  let errors :=
    if negb (has_cidr || has_aws_service)
    then errors ++ [destination_msg index "must specify either 'cidr' or 'awsService'"]
    else errors in
  let errors :=
    if has_cidr && has_aws_service
    then errors ++ [destination_msg index "cannot specify both 'cidr' and 'awsService'"]
    else errors in
  errors ←
    (if has_cidr then
       cidr ← getitem dest "cidr";
       if ip_network_ok cidr then Ok errors
       else
         cidr' ← getitem dest "cidr";
         Ok (errors ++ [destination_msg index ("Invalid CIDR format: " +:+ format cidr')])
     else Ok errors);
  if has_aws_service then
    aws ← getitem dest "awsService";
    service ← lower aws;
    let errors :=
      if negb (bool_decide (service ∈ VALID_AWS_SERVICES))
      then errors ++ [destination_msg index ("Invalid AWS service: " +:+ service)]
      else errors in
    regions ← get dest "regions" JNull;
    let errors :=
      if negb (truthy regions)
      then errors ++ [destination_msg index "AWS service requires 'regions' field"]
      else errors in
    Ok errors
  else Ok errors.

(** [for i, dest in enumerate(destinations)] *)
Fixpoint validate_loop (destinations : list json) (i : nat) (errors : list string)
  : result (list string) :=
  match destinations with
  | [] => Ok errors
  | dest :: rest =>
      errors ← _validate_destination dest i errors;
      validate_loop rest (S i) errors
  end.

(** [PolicyValidator.validate] *)
Definition validate (policy : json) : result ValidationResult :=
  let errors := [] in
  default_action ← get policy "defaultAction" (JStr "deny");
  known ← in_set default_action VALID_ACTIONS;
  let errors :=
    if negb known
    then errors ++ ["Invalid defaultAction: " +:+ format default_action] else errors in
  destinations ← get policy "allowedDestinations" (JList []);
  match destinations with
  | JList ds =>
      errors ← validate_loop ds 0%nat errors;
      Ok {| is_valid := bool_decide (length errors = 0%nat); errors := errors |}
  | _ =>
      let errors := errors ++ ["allowedDestinations must be a list"] in
      Ok {| is_valid := false; errors := errors |}
  end.

End Validator.

(** ** AWSServiceResolver *)

(** The instance attributes [_cache] and [_last_fetch].  The readings
    of the clock ([time.time()]) are taken in whole seconds. *)
Record AWSServiceResolver := {
  _cache : gmap string (list json);
  _last_fetch : Z;
}.

(** [self._cache_ttl = 3600  # 1 hour], never reassigned *)
Definition _cache_ttl : Z := 3600.

(** [AWSServiceResolver.__init__] *)
Definition new_resolver : AWSServiceResolver :=
  {| _cache := ∅; _last_fetch := 0 |}.

(** What the outside world does during one call of the resolver: the
    outcome of the HTTP request and the two readings of the clock. *)
Inductive fetch_outcome : Type :=
| NetworkError (msg : string)     (* [requests.get] raises: no route, timeout *)
| HttpStatusError (msg : string)  (* [raise_for_status] raises *)
| MalformedBody (msg : string)    (* [response.json()] raises *)
| Payload (ip_ranges : json).

Record world := {
  clock_check : Z;      (* [time.time()] in the freshness test *)
  http : fetch_outcome;
  clock_store : Z;      (* [time.time()] when the result is cached *)
}.

(** [requests.get(...); response.raise_for_status(); response.json()] *)
Definition http_get (o : fetch_outcome) : result json :=
  match o with
  | NetworkError m => Raise (RequestException m)
  | HttpStatusError m => Raise (RequestException m)
  | MalformedBody m => Raise (JSONDecodeError m)
  | Payload j => Ok j
  end.

Fixpoint all_strings (l : list json) : result (list string) :=
  match l with
  | [] => Ok []
  | JStr s :: rest => names ← all_strings rest; Ok (s :: names)
  | v :: _ =>
      Raise (TypeError ("sequence item: expected str instance, " +:+ type_name v +:+ " found"))
  end.

(** [f"{service}:{','.join(sorted(regions))}"]; [sorted] or [join]
    raises [TypeError] unless every element is a string. *)
Definition cache_key (service : string) (regions : json) : result string :=
  elems ← iter regions;
  names ← all_strings elems;
  Ok (service +:+ ":" +:+ join "," (sorted names)).

(** The loop over [ip_ranges.get('prefixes', [])] *)
Fixpoint prefix_loop (service_upper : string) (regions : json)
    (prefixes : list json) (cidrs : list json) : result (list json) :=
  match prefixes with
  | [] => Ok cidrs
  | prefix :: rest =>
      service ← get prefix "service" JNull;
      if is_str service_upper service then
        region ← get prefix "region" JNull;
        listed ← contains regions region;
        if (listed : bool) then
          ip_prefix ← getitem prefix "ip_prefix";
          prefix_loop service_upper regions rest (cidrs ++ [ip_prefix])
        else prefix_loop service_upper regions rest cidrs
      else prefix_loop service_upper regions rest cidrs
  end.

(** The body of the [try] up to the point where the result is cached *)
Definition fetch_cidrs (o : fetch_outcome) (service : string) (regions : json)
  : result (list json) :=
  ip_ranges ← http_get o;
  let service_upper := str_upper service in
  prefixes ← get ip_ranges "prefixes" (JList []);
  prefixes ← iter prefixes;
  prefix_loop service_upper regions prefixes [].

(** The result of one call: the addresses returned, whether
    [requests.get] was called, and the resolver afterwards. *)
Record resolution := {
  cidrs_of : list json;
  fetched : bool;
  resolver_of : AWSServiceResolver;
}.

(** [cache_key in self._cache and (time.time() - self._last_fetch) < self._cache_ttl] *)
Definition cache_hit (self : AWSServiceResolver) (w : world) (key : string) : bool :=
  bool_decide (is_Some (_cache self !! key))
  && (clock_check w - _last_fetch self <? _cache_ttl).

(** [AWSServiceResolver.resolve_service_cidrs] *)
Definition resolve_service_cidrs (self : AWSServiceResolver) (w : world)
    (service : string) (regions : json) : result resolution :=
  key ← cache_key service regions;
  if cache_hit self w key then
    Ok {| cidrs_of := default [] (_cache self !! key); fetched := false;
          resolver_of := self |}
  else
    try_except
      (cidrs ← fetch_cidrs (http w) service regions;
       Ok {| cidrs_of := cidrs; fetched := true;
             resolver_of := {| _cache := <[key := cidrs]> (_cache self);
                               _last_fetch := clock_store w |} |})
      (fun e => Ok {| cidrs_of := []; fetched := true; resolver_of := self |}).

(** A sequence of calls, each with what the world does during it *)
Record call := {
  call_service : string;
  call_regions : json;
  call_world : world;
}.

Fixpoint resolve_all (self : AWSServiceResolver) (calls : list call)
  : result (list resolution) :=
  match calls with
  | [] => Ok []
  | c :: rest =>
      r ← resolve_service_cidrs self (call_world c) (call_service c) (call_regions c);
      rs ← resolve_all (resolver_of r) rest;
      Ok (r :: rs)
  end.

(** ** EgressAgent: translation of a policy into a NetworkPolicy *)

(** The dict literals that [generate_network_policy] and
    [_create_egress_rule] build, as records. *)
Record ip_block := { cidr : json }.
Record port_entry := { protocol : string; port : json }.
Record egress_rule := {
  rule_to : list ip_block;        (* ['to']: [{'ipBlock': {'cidr': ...}}] *)
  rule_ports : list port_entry;   (* ['ports'] *)
}.
Record network_policy := {
  apiVersion : string;
  kind : string;
  metadata_name : string;
  metadata_namespace : string;
  metadata_labels : list (string * string);
  spec_podSelector : list (string * json);
  spec_policyTypes : list string;
  spec_egress : list egress_rule;
}.

(** [{'protocol': 'TCP', 'port': port}] *)
Definition tcp_port (port : json) : port_entry :=
  {| protocol := "TCP"; port := port |}.

(** Computations of the agent: they may raise, and they read and update
    the state [R] of [self.aws_resolver], which survives a raise. *)
Definition agent (R A : Type) : Type := R → result A * R.

Global Instance agent_ret {R} : MRet (agent R) := fun A a st => (Ok a, st).
Global Instance agent_bind {R} : MBind (agent R) := fun A B f m st =>
  match m st with
  | (Ok a, st') => f a st'
  | (Raise e, st') => (Raise e, st')
  end.

(** A computation that does not touch the resolver *)
Definition pure {R A} (r : result A) : agent R A := fun st => (r, st).

Section Translator.
Context `{Builtins}.

(** [self.aws_resolver]: any object with a [resolve_service_cidrs]
    method (the tests put a mock in its place). *)
Context {R : Type}.
Variable resolve : string → json → agent R (list json).

(** [EgressAgent._create_egress_rule] *)
Definition _create_egress_rule (destination : json) : agent R (option egress_rule) :=
  ports ← pure (get destination "ports" (JList []));
  ports ← pure (iter ports);
  let ports := tcp_port <$> ports in
  has_cidr ← pure (contains_str destination "cidr");
  if (has_cidr : bool) then
    c ← pure (getitem destination "cidr");
    mret (Some {| rule_to := [ {| cidr := c |} ]; rule_ports := ports |})
  else
    has_aws_service ← pure (contains_str destination "awsService");
    if (has_aws_service : bool) then
      aws ← pure (getitem destination "awsService");
      service ← pure (lower aws);
      regions ← pure (get destination "regions" (JList []));
      cidrs ← resolve service regions;
      match cidrs with
      | [] => mret None
      | first :: _ =>
          mret (Some {| rule_to := [ {| cidr := first |} ]; rule_ports := ports |})
      end
    else mret None.

(** [for dest in ...: rule = ...; if rule: egress.append(rule)] *)
Fixpoint egress_loop (destinations : list json) (egress : list egress_rule)
  : agent R (list egress_rule) :=
  match destinations with
  | [] => mret egress
  | dest :: rest =>
      egress_rule ← _create_egress_rule dest;
      match egress_rule with
      | Some rule => egress_loop rest (egress ++ [rule])
      | None => egress_loop rest egress
      end
  end.

(** The first [try] of [generate_network_policy]: only
    [json.JSONDecodeError] is caught, and re-raised as [ValueError]. *)
Definition load_policy (policy_data : json) : result json :=
  policy_json ← get policy_data "policy.json" (JStr "{}");
  match loads policy_json with
  | Raise (JSONDecodeError e) => Raise (ValueError ("Invalid JSON in policy: " +:+ e))
  | r => r
  end.

(** [EgressAgent.generate_network_policy] *)
Definition generate_network_policy (namespace : string) (policy_data : json)
  : agent R network_policy :=
  policy ← pure (load_policy policy_data);
  validation ← pure (validate policy);
  if negb (is_valid validation) then
    pure (Raise (ValueError ("Invalid policy: "
                             +:+ repr (JList (JStr <$> errors validation)))))
  else
    destinations ← pure (get policy "allowedDestinations" (JList []));
    destinations ← pure (iter destinations);
    egress ← egress_loop destinations [];
    mret {| apiVersion := "networking.k8s.io/v1";
            kind := "NetworkPolicy";
            metadata_name := "egress-policy-generated";
            metadata_namespace := namespace;
            metadata_labels := [("managed-by", "egress-agent")];
            spec_podSelector := [];
            spec_policyTypes := ["Egress"];
            spec_egress := egress |}.

End Translator.

(** The agent's own resolver, in a world that answers the [n]-th call
    of [resolve_service_cidrs] with [worlds n]. *)
Record resolver_state := {
  resolver : AWSServiceResolver;
  calls_made : nat;
}.

Definition aws_resolve (worlds : nat → world) (service : string) (regions : json)
  : agent resolver_state (list json) :=
  fun st =>
    match resolve_service_cidrs (resolver st) (worlds (calls_made st)) service regions with
    | Ok r => (Ok (cidrs_of r),
               {| resolver := resolver_of r; calls_made := S (calls_made st) |})
    | Raise e => (Raise e, {| resolver := resolver st; calls_made := S (calls_made st) |})
    end.

(** ** Admission gate ([webhook_server.py]) *)

(** The ['response'] part of the AdmissionReview that
    [create_admission_response] builds *)
Record admission_response := {
  uid : json;
  allowed : bool;
  status_code : Z;
  status_message : string;
}.

(** What the route returns: the review and the HTTP status *)
Definition reply : Type := admission_response * Z.

Definition create_admission_response (allowed : bool) (message : string) (uid : json)
  : admission_response :=
  {| uid := uid;
     allowed := allowed;
     status_code := if allowed then 200 else 400;
     status_message := message |}.

Section Gate.
Context `{Builtins}.

(** The handler of the outer [try]: [except Exception as e] *)
Definition internal_error (uid : json) (e : exn) : result reply :=
  Ok (create_admission_response false
        ("Internal validation error: " +:+ exn_str e) uid, 500).

(** The body of the outer [try] from the point where [uid] has been
    read from the request *)
Definition review_request (req uid : json) : result reply :=
  configmap ← get req "object" (JObj []);
  operation ← get req "operation" (JStr EmptyString);
  (* the f-string passed to [logger.info] *)
  metadata ← get configmap "metadata" (JObj []);
  _ ← get metadata "name" (JStr "unknown");
  metadata ← get configmap "metadata" (JObj []);
  labels ← get metadata "labels" (JObj []);
  controller ← get labels "egress-controller" JNull;
  if negb (is_str "managed" controller) then
    Ok (create_admission_response true "Not an egress policy ConfigMap" uid, 200)
  else
    data ← get configmap "data" (JObj []);
    policy_json ← get data "policy.json" (JStr EmptyString);
    missing ← strip_is_empty policy_json;
    if (missing : bool) then
      Ok (create_admission_response false "Missing policy.json in ConfigMap data" uid, 400)
    else
      match loads policy_json with
      | Raise (JSONDecodeError e) =>
          Ok (create_admission_response false
                ("Invalid JSON in policy.json: " +:+ e) uid, 400)
      | Raise e => Raise e
      | Ok policy =>
          validation_result ← validate policy;
          if is_valid validation_result then
            Ok (create_admission_response true "Policy validation successful" uid, 200)
          else
            let error_msg := "Policy validation failed: "
                             +:+ join "; " (errors validation_result) in
            Ok (create_admission_response false error_msg uid, 400)
      end.

(** The body of the outer [try], together with the value the
    variable [uid] has when the body is left (by [return] or by an
    exception).  The argument is what [request.get_json(force=True)]
    does. *)
Definition gate_body (request_json : result json) : result reply * json :=
  let uid := JStr EmptyString in
  match request_json with
  | Raise json_error =>
      (Ok (create_admission_response false "Invalid JSON request" uid, 400), uid)
  | Ok admission_review =>
      if negb (truthy admission_review) then
        (Ok (create_admission_response false "No data received" uid, 400), uid)
      else
        match get admission_review "request" (JObj []) with
        | Raise e => (Raise e, uid)
        | Ok req =>
            match get req "uid" (JStr EmptyString) with
            | Raise e => (Raise e, uid)
            | Ok uid => (review_request req uid, uid)
            end
        end
  end.

(** [validate_configmap]: the outer [try] and its handler *)
Definition validate_configmap (request_json : result json) : result reply :=
  let '(outcome, uid) := gate_body request_json in
  try_except outcome (internal_error uid).

End Gate.

(** ** Sample inputs *)

Module Sample.

Definition quote : string := String "034"%char EmptyString.

(** [json.dumps(v)], as the tests use it to write a policy document,
    on values without floats and without characters to escape *)
Fixpoint dumps (v : json) : string :=
  match v with
  | JNull => "null"
  | JBool b => if b then "true" else "false"
  | JInt z => pretty z
  | JFloat _ => "NaN"
  | JStr s => quote +:+ s +:+ quote
  | JList l => "[" +:+ join ", " (map dumps l) +:+ "]"
  | JObj kv =>
      "{" +:+ join ", " (map (λ p, quote +:+ p.1 +:+ quote +:+ ": " +:+ dumps p.2) kv)
      +:+ "}"
  end.

(** [repr(v)] on the same values *)
Fixpoint py_repr (v : json) : string :=
  match v with
  | JNull => "None"
  | JBool b => if b then "True" else "False"
  | JInt z => pretty z
  | JFloat _ => "nan"
  | JStr s => "'" +:+ s +:+ "'"
  | JList l => "[" +:+ join ", " (map py_repr l) +:+ "]"
  | JObj kv =>
      "{" +:+ join ", " (map (λ p, "'" +:+ p.1 +:+ "': " +:+ py_repr p.2) kv) +:+ "}"
  end.

Definition onprem : json :=
  JObj [("name", JStr "onprem"); ("cidr", JStr "10.1.0.0/16");
        ("ports", JList [JInt 443; JInt 80])].

Definition s3_access : json :=
  JObj [("name", JStr "s3-access"); ("awsService", JStr "S3");
        ("regions", JList [JStr "us-east-1"]); ("ports", JList [JInt 443])].

Definition rds_access : json :=
  JObj [("name", JStr "rds-access"); ("awsService", JStr "rds");
        ("regions", JList [JStr "eu-west-1"]); ("ports", JList [JInt 5432])].

(** both targets at once *)
Definition both_targets : json :=
  JObj [("name", JStr "both"); ("cidr", JStr "10.1.0.0/16"); ("awsService", JStr "S3");
        ("regions", JList [JStr "us-east-1"]); ("ports", JList [JInt 443])].

Definition policy_of (destinations : list json) : json :=
  JObj [("defaultAction", JStr "deny"); ("allowedDestinations", JList destinations)].

Definition documents : list json :=
  [ JObj []; JList [];
    policy_of [onprem];
    policy_of [s3_access; onprem; rds_access] ].

(** What Python's library does on the values of the examples: a
    finite table, enough to run them.  [json.loads] knows the texts
    of [documents]; [ip_network] knows three networks. *)
Definition table : Builtins := {|
  repr := py_repr;
  ip_network_ok v :=
    match v with
    | JStr s => bool_decide (s ∈ ["10.1.0.0/16"; "10.1.100.0/24"; "192.168.1.7/24"])
    | _ => false
    end;
  json_loads s :=
    match find (λ v, String.eqb (dumps v) s) documents with
    | Some v => Ok v
    | None => Raise (JSONDecodeError "Expecting value: line 1 column 1 (char 0)")
    end;
|}.

(** The ConfigMap data that holds a policy *)
Definition data_of (policy : json) : json :=
  JObj [("policy.json", JStr (dumps policy))].

Definition ip_ranges : json :=
  JObj [("prefixes", JList [
    JObj [("ip_prefix", JStr "52.216.0.0/15"); ("region", JStr "us-east-1");
          ("service", JStr "S3")];
    JObj [("ip_prefix", JStr "54.231.0.0/17"); ("region", JStr "us-east-1");
          ("service", JStr "S3")];
    JObj [("ip_prefix", JStr "3.5.140.0/22"); ("region", JStr "us-east-1");
          ("service", JStr "EC2")]])].

(** the table a day later: the first S3 prefix is gone *)
Definition ip_ranges_later : json :=
  JObj [("prefixes", JList [
    JObj [("ip_prefix", JStr "54.231.0.0/17"); ("region", JStr "us-east-1");
          ("service", JStr "S3")];
    JObj [("ip_prefix", JStr "3.5.140.0/22"); ("region", JStr "us-east-1");
          ("service", JStr "EC2")]])].

Definition at_time (t : Z) (o : fetch_outcome) : world :=
  {| clock_check := t; http := o; clock_store := t |}.

Definition call_at (t : Z) (service : string) (o : fetch_outcome) : call :=
  {| call_service := service;
     call_regions := JList [JStr "us-east-1"];
     call_world := at_time t o |}.

(** an agent whose resolver is new, in a world where every fetch at
    time 1000 gets [ip_ranges] *)
Definition worlds : nat → world := λ _, at_time 1000 (Payload ip_ranges).
Definition fresh_agent : resolver_state :=
  {| resolver := new_resolver; calls_made := 0 |}.

(** [Mock(return_value=["52.216.0.0/15"])] in place of the resolver *)
Definition mock_resolve : string → json → agent unit (list json) :=
  λ _ _ st, (Ok [JStr "52.216.0.0/15"], st).

(** an admission review for a document *)
Definition review_of (labels : list (string * json)) (data : json) : json :=
  JObj [("apiVersion", JStr "admission.k8s.io/v1");
        ("kind", JStr "AdmissionReview");
        ("request", JObj [
           ("uid", JStr "test-uid-123");
           ("operation", JStr "CREATE");
           ("object", JObj [
              ("metadata", JObj [("name", JStr "egress-policy");
                                 ("namespace", JStr "tenant-a");
                                 ("labels", JObj labels)]);
              ("data", data)])])].

Definition managed_label : list (string * json) :=
  [("egress-controller", JStr "managed")].

End Sample.

(** ** EgressAgent: applying a NetworkPolicy and handling watch events *)

(** The calls the agent makes on [self.networking_v1] *)
Inductive api_call : Type :=
| read_namespaced_network_policy (name namespace : string)
| patch_namespaced_network_policy (name namespace : string) (body : network_policy)
| create_namespaced_network_policy (namespace : string) (body : network_policy)
| delete_namespaced_network_policy (name namespace : string).

(** What a call does: it returns, the client raises [ApiException]
    with the status of the response, or the client raises an exception
    of another class (a connection error of [urllib3], an
    [ApiValueError]), of which the text is kept.  These derive from
    [Exception] and not from [ApiException]. *)
Inductive api_reply : Type :=
| ApiReturns
| ApiRaises (status : Z) (reason : string)
| ClientRaises (what : string).

(** The cluster, as the agent meets it: its answer to a call, given the
    calls the agent made before. *)
Definition cluster : Type := list api_call → api_call → api_reply.

(** What stops a computation of the event handler: an exception of
    Python, an [ApiException], another exception of the client (all
    three derive from [Exception]), or an object of the watch on which
    the client library is not modelled (a namespace that is not a
    string). *)
Inductive failure : Type :=
| PyError (e : exn)
| ApiException (status : Z) (reason : string)
| ClientError (what : string)
| Unmodelled.

Inductive outcome (A : Type) : Type :=
| Returns (a : A)
| Throws (f : failure).
Global Arguments Returns {A} a.
Global Arguments Throws {A} f.

(** The agent between two events: the state of [self.aws_resolver] and
    the calls made on the cluster so far. *)
Record agent_state (R : Type) := {
  aws_resolver : R;
  api_log : list api_call;
}.
Global Arguments aws_resolver {R} _.
Global Arguments api_log {R} _.

Definition handler (R A : Type) : Type := agent_state R → outcome A * agent_state R.

Global Instance handler_ret {R} : MRet (handler R) := fun A a st => (Returns a, st).
Global Instance handler_bind {R} : MBind (handler R) := fun A B f m st =>
  match m st with
  | (Returns a, st') => f a st'
  | (Throws e, st') => (Throws e, st')
  end.

Definition throw {R A} (f : failure) : handler R A := fun st => (Throws f, st).

(** A computation of Python that touches neither resolver nor cluster *)
Definition py {R A} (r : result A) : handler R A :=
  fun st =>
    match r with
    | Ok a => (Returns a, st)
    | Raise e => (Throws (PyError e), st)
    end.

(** A computation on the resolver alone *)
Definition on_resolver {R A} (m : agent R A) : handler R A :=
  fun st =>
    match m (aws_resolver st) with
    | (Ok a, r) => (Returns a, {| aws_resolver := r; api_log := api_log st |})
    | (Raise e, r) => (Throws (PyError e), {| aws_resolver := r; api_log := api_log st |})
    end.

(** [try: m except ApiException as e: h(e)] *)
Definition except_api {R A} (m : handler R A) (h : Z → string → handler R A) : handler R A :=
  fun st =>
    match m st with
    | (Throws (ApiException status reason), st') => h status reason st'
    | r => r
    end.

(** [try: m except Exception as e: h(e)] *)
Definition except_exception {R A} (m : handler R A) (h : failure → handler R A)
  : handler R A :=
  fun st =>
    match m st with
    | (Throws Unmodelled, st') => (Throws Unmodelled, st')
    | (Throws f, st') => h f st'
    | r => r
    end.

(** The namespace handed to the client library *)
Definition as_namespace {R} (v : json) : handler R string :=
  match v with
  | JStr s => mret s
  | _ => throw Unmodelled
  end.

Section Reconciliation.
Context `{Builtins} {R : Type}.
Variable resolve : string → json → agent R (list json).

(** [self.dry_run], read from the environment when the agent is made *)
Variable dry_run : bool.

(** [self.networking_v1] *)
Variable k8s : cluster.

(** One call on the cluster: it is logged, and returns or raises. *)
Definition api (c : api_call) : handler R unit :=
  fun st =>
    let st' := {| aws_resolver := aws_resolver st; api_log := api_log st ++ [c] |} in
    match k8s (api_log st) c with
    | ApiReturns => (Returns (), st')
    | ApiRaises status reason => (Throws (ApiException status reason), st')
    | ClientRaises what => (Throws (ClientError what), st')
    end.

(** [EgressAgent.apply_network_policy] *)
Definition apply_network_policy (network_policy : network_policy) : handler R unit :=
  let namespace := metadata_namespace network_policy in
  let name := metadata_name network_policy in
  if dry_run then mret ()
  else
    except_api
      (except_api
         (api (read_namespaced_network_policy name namespace);;
          api (patch_namespaced_network_policy name namespace network_policy))
         (λ status reason,
            if status =? 404 then
              api (create_namespaced_network_policy namespace network_policy)
            else throw (ApiException status reason)))
      (λ _ _, mret ()).

(** [EgressAgent.process_configmap_event] *)
Definition process_configmap_event (event_type : string) (configmap : json)
  : handler R unit :=
  metadata ← py (get configmap "metadata" (JObj []));
  name ← py (get metadata "name" JNull);
  namespace ← py (get metadata "namespace" JNull);
  labels ← py (get metadata "labels" (JObj []));
  controller ← py (get labels "egress-controller" JNull);
  if negb (is_str "managed" controller) then mret ()
  else if bool_decide (event_type ∈ ["ADDED"; "MODIFIED"]) then
    except_exception
      (policy_data ← py (get configmap "data" (JObj []));
       namespace ← as_namespace namespace;
       network_policy ← on_resolver (generate_network_policy resolve namespace policy_data);
       apply_network_policy network_policy)
      (λ _, mret ())
  else if String.eqb event_type "DELETED" then
    except_api
      (if negb dry_run then
         namespace ← as_namespace namespace;
         api (delete_namespaced_network_policy "egress-policy-generated" namespace)
       else mret ())
      (λ _ _, mret ())
  else mret ().

(** [for event in stream: self.process_configmap_event(event['type'], event['object'])] *)
Fixpoint watch_loop (stream : list (string * json)) : handler R unit :=
  match stream with
  | [] => mret ()
  | event :: rest =>
      process_configmap_event event.1 event.2;;
      watch_loop rest
  end.

(** [EgressAgent.start_watching] on the events that the watch delivers
    before it ends: an exception ends the loop, is logged, and the
    method returns after its pause. *)
Definition start_watching (stream : list (string * json)) : handler R unit :=
  except_exception (watch_loop stream) (λ _, mret ()).

End Reconciliation.

(** ** Sample cluster and objects *)

Module Scenario.

(** A cluster on which the agent is the only writer: whether the
    policy [name] of [namespace] exists after the calls of a log *)
Fixpoint present (log : list api_call) (name namespace : string) (before : bool) : bool :=
  match log with
  | [] => before
  | create_namespaced_network_policy ns body :: rest =>
      present rest name namespace
        (before || (String.eqb ns namespace && String.eqb (metadata_name body) name))
  | delete_namespaced_network_policy n ns :: rest =>
      present rest name namespace
        (before && negb (String.eqb ns namespace && String.eqb n name))
  | _ :: rest => present rest name namespace before
  end.

(** Its answers: 404 on a policy that is not there, 409 on a create
    of one that is. *)
Definition solo_cluster : cluster := λ log c,
  match c with
  | read_namespaced_network_policy n ns
  | patch_namespaced_network_policy n ns _
  | delete_namespaced_network_policy n ns =>
      if present log n ns false then ApiReturns else ApiRaises 404 "Not Found"
  | create_namespaced_network_policy ns body =>
      if present log (metadata_name body) ns false
      then ApiRaises 409 "Conflict" else ApiReturns
  end.

(** A cluster that refuses every call *)
Definition forbidding_cluster : cluster := λ _ _, ApiRaises 403 "Forbidden".

(** A cluster that cannot be reached: the client gives up every call *)
Definition unreachable_cluster : cluster := λ _ _, ClientRaises "Max retries exceeded".

(** A destination with one port, not in a list *)
Definition db_bare_port : json :=
  JObj [("name", JStr "db"); ("cidr", JStr "10.1.0.0/16"); ("ports", JInt 443)].

Definition s3_bare_port : json :=
  JObj [("name", JStr "s3-access"); ("awsService", JStr "s3");
        ("regions", JList [JStr "us-east-1"]); ("ports", JInt 443)].

Definition allow_policy (destinations : list json) : json :=
  JObj [("defaultAction", JStr "allow"); ("allowedDestinations", JList destinations)].

Definition documents : list json :=
  Sample.documents
  ++ [ allow_policy [Sample.onprem];
       Sample.policy_of [Sample.both_targets];
       Sample.policy_of [Sample.onprem; JObj [("cidr", JStr "bad")]];
       Sample.policy_of [db_bare_port];
       Sample.policy_of [s3_bare_port] ].

(** What Python's library does on the values of the examples, with
    more documents than [Sample.table] *)
Definition table : Builtins := {|
  repr := Sample.py_repr;
  ip_network_ok := @ip_network_ok Sample.table;
  json_loads s :=
    match find (λ v, String.eqb (Sample.dumps v) s) documents with
    | Some v => Ok v
    | None => Raise (JSONDecodeError "Expecting value: line 1 column 1 (char 0)")
    end;
|}.

(** An object of the watch *)
Definition configmap_of (labels : list (string * json)) (data : json)
  : list (string * json) :=
  [("metadata", JObj [("name", JStr "egress-policy"); ("namespace", JStr "tenant-a");
                      ("labels", JObj labels)]);
   ("data", data)].

Definition managed_configmap (policy : json) : list (string * json) :=
  configmap_of Sample.managed_label (Sample.data_of policy).

(** An agent that has done nothing yet, with a mock for resolver *)
Definition idle : agent_state unit := {| aws_resolver := (); api_log := [] |}.

(** Entries of the address-range table as it is published: four
    keys, the address first *)
Definition entry (ip region service group : string) : list (string * json) :=
  [("ip_prefix", JStr ip); ("region", JStr region); ("service", JStr service);
   ("network_border_group", JStr group)].

Definition entries : list (list (string * json)) :=
  [ entry "52.216.0.0/15" "us-east-1" "S3" "us-east-1";
    entry "3.5.140.0/22" "ap-northeast-2" "EC2" "ap-northeast-2";
    [("service", JStr "S3"); ("region", JStr "us-west-2")];
    entry "54.231.0.0/17" "us-east-1" "S3" "us-east-1" ].

End Scenario.

(** * Specification-level definitions *)

(** One check of section 4.1 of the specification: a message when the
    check fails, nothing otherwise. *)
Definition check (failed : bool) (msg : string) : list string :=
  if failed then [msg] else [].

Definition has_key (kv : list (string * json)) (k : string) : bool :=
  bool_decide (is_Some (dict_get kv k)).

(** A value that can be looked up in a set *)
Definition hashable (v : json) : Prop :=
  match v with
  | JList _ | JObj _ => False
  | _ => True
  end.

(** A destination on which [_validate_destination] does not raise: a
    dict whose [awsService], when present, is a string. *)
Definition checkable (dest : json) : Prop :=
  ∃ kv, dest = JObj kv ∧
        ∀ a, dict_get kv "awsService" = Some a → ∃ s, a = JStr s.

Section ValidatorSpec.
Context `{Builtins}.

(** The errors of one destination as the specification lists them:
    every rule is looked at on its own, whatever the others found. *)
Definition destination_errors (i : nat) (dest : json) : list string :=
  match dest with
  | JObj kv =>
      check (negb (truthy (default JNull (dict_get kv "name"))))
            (destination_msg i "missing 'name' field")
      ++ check (negb (truthy (default JNull (dict_get kv "ports"))))
               (destination_msg i "missing 'ports' field")
      ++ check (negb (has_key kv "cidr" || has_key kv "awsService"))
               (destination_msg i "must specify either 'cidr' or 'awsService'")
      ++ check (has_key kv "cidr" && has_key kv "awsService")
               (destination_msg i "cannot specify both 'cidr' and 'awsService'")
      ++ match dict_get kv "cidr" with
         | Some c => check (negb (ip_network_ok c))
                           (destination_msg i ("Invalid CIDR format: " +:+ format c))
         | None => []
         end
      ++ match dict_get kv "awsService" with
         | Some (JStr s) =>
             check (negb (bool_decide (str_lower s ∈ VALID_AWS_SERVICES)))
                   (destination_msg i ("Invalid AWS service: " +:+ str_lower s))
             ++ check (negb (truthy (default JNull (dict_get kv "regions"))))
                      (destination_msg i "AWS service requires 'regions' field")
         | _ => []
         end
  | _ => []
  end.

(** The error about [defaultAction], when it is a value that can be
    looked up in a set *)
Definition action_errors (default_action : json) : list string :=
  match in_set default_action VALID_ACTIONS with
  | Ok known => check (negb known) ("Invalid defaultAction: " +:+ format default_action)
  | Raise _ => []
  end.

End ValidatorSpec.


Section TranslatorSpec.
Context `{Builtins} {R : Type}.
Variable resolve : string → json → agent R (list json).

(** [steps st ds os st']: starting with the resolver in state [st],
    the destinations [ds], taken one after the other, yield the
    (optional) rules [os] and leave the resolver in state [st']. *)
Inductive steps : R → list json → list (option egress_rule) → R → Prop :=
| steps_nil st : steps st [] [] st
| steps_cons st dest o st' ds os st'' :
    _create_egress_rule resolve dest st = (Ok o, st') →
    steps st' ds os st'' →
    steps st (dest :: ds) (o :: os) st''.


End TranslatorSpec.

(** The NetworkPolicy generated for a namespace from a list of rules *)
Definition generated (namespace : string) (egress : list egress_rule) : network_policy :=
  {| apiVersion := "networking.k8s.io/v1";
     kind := "NetworkPolicy";
     metadata_name := "egress-policy-generated";
     metadata_namespace := namespace;
     metadata_labels := [("managed-by", "egress-agent")];
     spec_podSelector := [];
     spec_policyTypes := ["Egress"];
     spec_egress := egress |}.

(** The admission request as section 6 of the specification has it: a
    field that must hold an object, and is taken as empty when absent. *)
Definition subdict (kv : list (string * json)) (k : string)
  : option (list (string * json)) :=
  match dict_get kv k with
  | None => Some []
  | Some (JObj o) => Some o
  | Some _ => None
  end.

(** The request of an admission review that is a non-empty object *)
Definition request_of (review : json) : option (list (string * json)) :=
  match review with
  | JObj (b :: kv) => subdict (b :: kv) "request"
  | _ => None
  end.

(** The document the request carries *)
Definition document_of (review : json) : option (list (string * json)) :=
  req ← request_of review; subdict req "object".

(** The labels of a document *)
Definition labels_of (configmap : list (string * json))
  : option (list (string * json)) :=
  metadata ← subdict configmap "metadata"; subdict metadata "labels".

(** The document carries the label [egress-controller=managed]. *)
Definition managed (configmap : list (string * json)) : Prop :=
  ∃ labels, labels_of configmap = Some labels
            ∧ dict_get labels "egress-controller" = Some (JStr "managed").

(** The document has labels, and [egress-controller=managed] is not
    one of them. *)
Definition unmanaged (configmap : list (string * json)) : Prop :=
  ∃ labels, labels_of configmap = Some labels
            ∧ dict_get labels "egress-controller" ≠ Some (JStr "managed").

(** The [uid] of the request, [''] when it has none *)
Definition uid_of (review : json) : json :=
  match request_of review with
  | Some req => default (JStr EmptyString) (dict_get req "uid")
  | None => JStr EmptyString
  end.

(** The address-range fetch fails: the request raises, the status is an
    error, the body is not JSON, or it is JSON but not an object. *)
Definition fetch_fails (o : fetch_outcome) : Prop :=
  match o with
  | Payload (JObj _) => False
  | _ => True
  end.

(** The calls of a history that are made on a given cache key *)
Definition on_key (key : string) (c : call) : bool :=
  match cache_key (call_service c) (call_regions c) with
  | Ok k => String.eqb k key
  | Raise _ => false
  end.

(** For each call of a history, whether it fetched *)
Definition fetches (self : AWSServiceResolver) (calls : list call) : option (list bool) :=
  match resolve_all self calls with
  | Ok rs => Some (fetched <$> rs)
  | Raise _ => None
  end.

(** Whether the last call of a history fetched *)
Definition last_fetched (self : AWSServiceResolver) (calls : list call) : option bool :=
  fs ← fetches self calls; last fs.

(** Freshness per cache key, as section 5 of the specification asks:
    whether a call on a key fetches depends only on the earlier calls
    on that key. *)
Definition per_key_freshness : Prop :=
  ∀ (calls1 calls2 : list call) (c : call) (key : string),
    cache_key (call_service c) (call_regions c) = Ok key →
    filter (λ c', on_key key c' = true) calls1 = filter (λ c', on_key key c' = true) calls2 →
    last_fetched new_resolver (calls1 ++ [c]) = last_fetched new_resolver (calls2 ++ [c]).

(** Unfolds the monad of the agent. *)
Ltac run_agent :=
  unfold mbind, agent_bind, mret, agent_ret, pure in *; simpl in *.

(** ** Specification-level definitions for the rest of the agent *)

Section AcceptableSpec.
Context `{Builtins}.

(** A destination the validator has nothing to say against: an object
    with a name and ports, and exactly one target, a [cidr] that parses
    or a supported service with regions. *)
Definition acceptable_destination (dest : json) : Prop :=
  ∃ kv, dest = JObj kv
    ∧ truthy (default JNull (dict_get kv "name")) = true
    ∧ truthy (default JNull (dict_get kv "ports")) = true
    ∧ ((∃ c, dict_get kv "cidr" = Some c ∧ ip_network_ok c = true
             ∧ dict_get kv "awsService" = None)
       ∨ (dict_get kv "cidr" = None
          ∧ ∃ s, dict_get kv "awsService" = Some (JStr s)
                 ∧ str_lower s ∈ VALID_AWS_SERVICES
                 ∧ truthy (default JNull (dict_get kv "regions")) = true)).

(** A policy the validator accepts: an object whose [defaultAction] is
    absent, ["allow"] or ["deny"], and whose destinations are absent or
    a list of acceptable destinations. *)
Definition acceptable (policy : json) : Prop :=
  ∃ kv ds, policy = JObj kv
    ∧ (dict_get kv "defaultAction" = None
       ∨ dict_get kv "defaultAction" = Some (JStr "allow")
       ∨ dict_get kv "defaultAction" = Some (JStr "deny"))
    ∧ default (JList []) (dict_get kv "allowedDestinations") = JList ds
    ∧ Forall acceptable_destination ds.

End AcceptableSpec.

(** Text of ASCII characters only.  On such text [str_upper],
    [str_lower] and [is_blank] are what [upper()], [lower()] and
    [not s.strip()] compute; on other text Python also maps letters
    and strips white space beyond ASCII. *)
Definition is_ascii (s : string) : bool :=
  forallb (λ a, (N_of_ascii a <? 128)%N) (list_ascii_of_string s).

(** An entry of the address-range table (a dict, whatever its keys and
    their order) belongs to a service and to one of some regions. *)
Definition entry_matches (service_upper : string) (regions : list string)
    (entry : list (string * json)) : bool :=
  match dict_get entry "service", dict_get entry "region" with
  | Some (JStr s), Some (JStr r) => String.eqb s service_upper && bool_decide (r ∈ regions)
  | _, _ => false
  end.

(** The entries of a service in some regions, in the order of the table *)
Definition matching (service_upper : string) (regions : list string)
    (entries : list (list (string * json))) : list (list (string * json)) :=
  filter (λ entry, entry_matches service_upper regions entry = true) entries.

(** What is left of the answer to a call once every [ApiException] is
    absorbed: nothing, unless the client raised another exception. *)
Definition absorbed (reply : api_reply) : outcome unit :=
  match reply with
  | ClientRaises what => Throws (ClientError what)
  | _ => Returns ()
  end.

(** A cluster whose client raises nothing but [ApiException] *)
Definition api_exceptions_only (k8s : cluster) : Prop :=
  ∀ log c what, k8s log c ≠ ClientRaises what.

(** The [uid] that a reply has to carry: that of the request, when the
    review is a non-empty object whose request is an object (or is
    absent); [''] otherwise. *)
Definition echoed_uid (request_json : result json) : json :=
  match request_json with
  | Ok review => uid_of review
  | Raise _ => JStr EmptyString
  end.

(** The namespace of an object of the watch, when it is a string *)
Definition namespace_of (configmap : list (string * json)) : option string :=
  metadata ← subdict configmap "metadata";
  match dict_get metadata "namespace" with
  | Some (JStr ns) => Some ns
  | _ => None
  end.

(** An object of the watch that the event handler can read: an object
    whose metadata and labels are objects or absent, and whose
    namespace is a string when it carries the label. *)
Definition readable (configmap : json) : Prop :=
  ∃ kv, configmap = JObj kv
        ∧ (unmanaged kv ∨ (managed kv ∧ ∃ ns, namespace_of kv = Some ns)).

(** Unfolds the monad of the event handler. *)
Ltac run_handler :=
  unfold mbind, handler_bind, mret, handler_ret, py, on_resolver, throw,
    except_api, except_exception, api, as_namespace in *;
  simpl in *.

(** * Properties *)

(** ** The validator *)

Section ValidatorProperties.
Context `{Builtins}.

Lemma validate_destination_errors (dest : json) (i : nat) (errs : list string) :
  checkable dest →
  _validate_destination dest i errs = Ok (errs ++ destination_errors i dest).
Proof.
  intros (kv & -> & Haws).
  unfold _validate_destination, destination_errors, has_key, check; simpl.
  destruct (dict_get kv "awsService") as [a|] eqn:Ea.
  - destruct (Haws a eq_refl) as [s ->].
    destruct (dict_get kv "cidr") as [c|] eqn:Ec; simpl;
      repeat match goal with
             | |- context [if ?b then _ else _] => destruct b; simpl
             end;
      rewrite ?app_nil_r, <- ?app_assoc; reflexivity.
  - destruct (dict_get kv "cidr") as [c|] eqn:Ec; simpl;
      repeat match goal with
             | |- context [if ?b then _ else _] => destruct b; simpl
             end;
      rewrite ?app_nil_r, <- ?app_assoc; reflexivity.
Qed.

Lemma validate_loop_errors (ds : list json) (i : nat) (errs : list string) :
  Forall checkable ds →
  validate_loop ds i errs
  = Ok (errs ++ concat (imap (λ j, destination_errors (i + j)) ds)).
Proof.
  intros Hds. revert i errs.
  induction Hds as [|d ds Hd _ IH]; intros i errs; simpl.
  - by rewrite app_nil_r.
  - rewrite (validate_destination_errors d i errs Hd); simpl.
    rewrite IH, Nat.add_0_r, <- app_assoc. do 4 f_equal.
    apply imap_ext. intros j x _. simpl. f_equal. lia.
Qed.

Lemma in_set_hashable (v : json) (S : gset string) :
  hashable v → ∃ known, in_set v S = Ok known.
Proof. destruct v; simpl; intros Hv; try contradiction; eauto. Qed.

(** All destinations are checked and every error is kept. *)
Lemma validate_list (kv : list (string * json)) (ds : list json) :
  hashable (default (JStr "deny") (dict_get kv "defaultAction")) →
  default (JList []) (dict_get kv "allowedDestinations") = JList ds →
  Forall checkable ds →
  let all := action_errors (default (JStr "deny") (dict_get kv "defaultAction"))
             ++ concat (imap destination_errors ds) in
  validate (JObj kv) = Ok {| is_valid := bool_decide (length all = 0%nat); errors := all |}.
Proof.
  intros Hact Hds Hall. unfold validate, action_errors; simpl.
  destruct (in_set_hashable _ VALID_ACTIONS Hact) as [known ->]; simpl.
  rewrite Hds, (validate_loop_errors ds 0 _ Hall); simpl.
  unfold check. by destruct known.
Qed.

(** A [destinations] field that is not a list ends the validation:
    the errors are those found so far and one more. *)
Lemma validate_not_a_list (kv : list (string * json)) (d : json) :
  hashable (default (JStr "deny") (dict_get kv "defaultAction")) →
  dict_get kv "allowedDestinations" = Some d →
  (∀ ds, d ≠ JList ds) →
  validate (JObj kv)
  = Ok {| is_valid := false;
          errors := action_errors (default (JStr "deny") (dict_get kv "defaultAction"))
                    ++ ["allowedDestinations must be a list"] |}.
Proof.
  intros Hact Hd Hnl. unfold validate, action_errors; simpl.
  destruct (in_set_hashable _ VALID_ACTIONS Hact) as [known ->]; simpl.
  rewrite Hd; simpl.
  destruct d; try (unfold check; by destruct known).
  by destruct (Hnl l).
Qed.

(** A destination on which [_validate_destination] returns can be
    checked. *)
Lemma validate_destination_checkable (dest : json) (i : nat) (errs errs' : list string) :
  _validate_destination dest i errs = Ok errs' → checkable dest.
Proof.
  destruct dest as [| | | | | |kv]; try discriminate.
  intros Hv. exists kv. split; [done|]. intros a Ha.
  unfold _validate_destination in Hv; simpl in Hv. rewrite Ha in Hv; simpl in Hv.
  destruct (bool_decide (is_Some (dict_get kv "cidr"))); simpl in Hv;
    [destruct (dict_get kv "cidr"); simpl in Hv; [|discriminate];
     destruct (ip_network_ok _); simpl in Hv|];
    destruct a; simpl in Hv; try discriminate; eauto.
Qed.

Lemma validate_loop_checkable (ds : list json) (i : nat) (errs errs' : list string) :
  validate_loop ds i errs = Ok errs' → Forall checkable ds.
Proof.
  revert i errs. induction ds as [|d ds IH]; intros i errs Hv; [constructor|].
  simpl in Hv.
  destruct (_validate_destination d i errs) as [errs1|] eqn:Hd; [|discriminate].
  constructor; eauto using validate_destination_checkable.
Qed.

(** C3 (as amended).  On a policy that is a dict whose
    [defaultAction] can be looked up in a set (any value but a list or
    a dict) and whose destinations are absent or a list of dicts whose
    [awsService], when present, is a string, [validate] makes one pass
    and keeps every error: the error about [defaultAction], when there
    is one, followed by the errors of every destination in order, none
    dropped because of an earlier one.  When the destinations field is
    present and is not a list, validation stops there: no destination
    is checked, the result is invalid, and its errors are the error
    about [defaultAction], when there is one, followed by the single
    error that the field must be a list.  On every other input (a
    policy that is not a dict, a [defaultAction] that is a list or a
    dict, a list of destinations of which one is not a dict or has an
    [awsService] that is not a string) [validate] raises and returns no
    result. *)
Theorem validate_collects_all_errors (kv : list (string * json)) :
  let default_action := default (JStr "deny") (dict_get kv "defaultAction") in
  let action := action_errors default_action in
  (hashable default_action →
   (∀ ds, default (JList []) (dict_get kv "allowedDestinations") = JList ds →
          Forall checkable ds →
          validate (JObj kv)
          = Ok {| is_valid := bool_decide (length (action ++ concat (imap destination_errors ds)) = 0%nat);
                  errors := action ++ concat (imap destination_errors ds) |})
   ∧ (∀ d, dict_get kv "allowedDestinations" = Some d →
           (∀ ds, d ≠ JList ds) →
           validate (JObj kv)
           = Ok {| is_valid := false;
                   errors := action ++ ["allowedDestinations must be a list"] |}
           ∧ (length action ≤ 1)%nat)
   ∧ (∀ ds, default (JList []) (dict_get kv "allowedDestinations") = JList ds →
            ¬ Forall checkable ds →
            ∃ e, validate (JObj kv) = Raise e))
  ∧ (¬ hashable default_action → ∃ e, validate (JObj kv) = Raise e)
  ∧ (∀ policy, (∀ kv', policy ≠ JObj kv') → ∃ e, validate policy = Raise e).
Proof.
  intros default_action action. split; [|split].
  - intros Hact. split; [|split].
    + intros ds Hds Hall. by apply validate_list.
    + intros d Hd Hnl. split; [by apply (validate_not_a_list kv d)|].
      subst action. unfold action_errors, check.
      destruct (in_set _ _) as [[]|]; simpl; lia.
    + intros ds Hds Hnot. unfold validate; simpl. fold default_action.
      destruct (in_set_hashable _ VALID_ACTIONS Hact) as [known ->]; simpl.
      rewrite Hds.
      destruct (validate_loop ds 0 _) as [errs|e] eqn:Hl; simpl; [|by eauto].
      destruct Hnot. by eapply validate_loop_checkable.
  - intros Hact. unfold validate; simpl. fold default_action.
    destruct default_action; simpl in *; try (by destruct Hact); eauto.
  - intros policy Hnd. destruct policy as [| | | | | |kv']; simpl; eauto.
    by destruct (Hnd kv').
Qed.

(** C4.  A destination that sets both [cidr] and [awsService] and is
    otherwise well formed (a name, ports, a [cidr] that parses, a
    supported service, regions) makes [validate] return an invalid
    result with exactly one error, the one about the two targets
    excluding each other. *)
Theorem validate_both_targets (policy dest : list (string * json))
    (name ports c regions : json) (service : string) :
  in_set (default (JStr "deny") (dict_get policy "defaultAction")) VALID_ACTIONS = Ok true →
  dict_get policy "allowedDestinations" = Some (JList [JObj dest]) →
  dict_get dest "name" = Some name → truthy name = true →
  dict_get dest "ports" = Some ports → truthy ports = true →
  dict_get dest "cidr" = Some c → ip_network_ok c = true →
  dict_get dest "awsService" = Some (JStr service) →
  str_lower service ∈ VALID_AWS_SERVICES →
  dict_get dest "regions" = Some regions → truthy regions = true →
  validate (JObj policy)
  = Ok {| is_valid := false;
          errors := ["Destination 0: cannot specify both 'cidr' and 'awsService'"] |}.
Proof.
  intros Hact Hds Hn Hnt Hp Hpt Hc Hct Hs Hst Hr Hrt.
  unfold validate; simpl. rewrite Hact, Hds; simpl.
  rewrite (validate_destination_errors (JObj dest) 0 []); simpl.
  - unfold has_key. rewrite Hn, Hp, Hc, Hs, Hr; simpl.
    rewrite Hnt, Hpt, Hct, Hrt; simpl.
    rewrite (bool_decide_eq_true_2 _ Hst); simpl.
    reflexivity.
  - exists dest. split; [done|]. intros a Ha. rewrite Hs in Ha.
    injection Ha as <-. by exists service.
Qed.

End ValidatorProperties.

(** ** The translator *)

Section TranslatorProperties.
Context `{Builtins} {R : Type}.
Variable resolve : string → json → agent R (list json).

(** What a policy that [validate] returns on looks like *)
Lemma validate_ok_destinations (policy : json) (v : ValidationResult) (ds : list json) :
  validate policy = Ok v →
  get policy "allowedDestinations" (JList []) = Ok (JList ds) →
  Forall checkable ds.
Proof.
  unfold validate. intros Hv Hds.
  destruct (get policy "defaultAction" _); [|discriminate]; simpl in Hv.
  destruct (in_set _ _); [|discriminate]; simpl in Hv.
  rewrite Hds in Hv; simpl in Hv.
  destruct (validate_loop ds 0 _) eqn:Hl; [|discriminate].
  eauto using validate_loop_checkable.
Qed.

(** The loop emits, in order, the rules of the steps that made one. *)
Lemma egress_loop_steps (ds : list json) (acc rules : list egress_rule) (st st' : R) :
  egress_loop resolve ds acc st = (Ok rules, st') ↔
  ∃ os, steps resolve st ds os st' ∧ rules = acc ++ omap id os.
Proof.
  revert acc st. induction ds as [|d ds IH]; intros acc st; simpl.
  - run_agent. split.
    + intros [= <- <-]. exists []. split; [constructor|by rewrite app_nil_r].
    + intros (os & Hs & ->). inversion Hs; subst. by rewrite app_nil_r.
  - unfold mbind, agent_bind at 1.
    destruct (_create_egress_rule resolve d st) as [[[rule|]|e] st1] eqn:Hd.
    + rewrite IH. split.
      * intros (os & Hs & ->). exists (Some rule :: os).
        split; [by econstructor|]. simpl. by rewrite <- app_assoc.
      * intros (os & Hs & ->). inversion Hs; subst.
        match goal with Hc : _create_egress_rule _ _ _ = _ |- _ =>
          rewrite Hd in Hc; injection Hc as <- <- end.
        eexists. split; [eassumption|]. simpl. by rewrite <- app_assoc.
    + rewrite IH. split.
      * intros (os & Hs & ->). exists (None :: os). split; [by econstructor|done].
      * intros (os & Hs & ->). inversion Hs; subst.
        match goal with Hc : _create_egress_rule _ _ _ = _ |- _ =>
          rewrite Hd in Hc; injection Hc as <- <- end.
        eexists. split; [eassumption|done].
    + split; [discriminate|].
      intros (os & Hs & _). inversion Hs; subst. congruence.
Qed.

(** The stages of [generate_network_policy] when it returns *)
Lemma generate_network_policy_ok (namespace : string) (policy_data : json)
    (np : network_policy) (st st' : R) :
  generate_network_policy resolve namespace policy_data st = (Ok np, st') ↔
  ∃ policy v destinations ds egress,
    load_policy policy_data = Ok policy
    ∧ validate policy = Ok v ∧ is_valid v = true
    ∧ get policy "allowedDestinations" (JList []) = Ok destinations
    ∧ iter destinations = Ok ds
    ∧ egress_loop resolve ds [] st = (Ok egress, st')
    ∧ np = generated namespace egress.
Proof.
  unfold generate_network_policy, generated. run_agent. split.
  - intros Hg.
    destruct (load_policy policy_data) as [policy|] eqn:Hp; [|discriminate].
    destruct (validate policy) as [v|] eqn:Hval; [|discriminate].
    destruct (is_valid v) eqn:Hv; simpl in Hg; [|discriminate].
    destruct (get policy "allowedDestinations" _) as [destinations|] eqn:Hd;
      [|discriminate].
    destruct (iter destinations) as [ds|] eqn:Hi; [|discriminate].
    destruct (egress_loop resolve ds [] st) as [[egress|] st1] eqn:Hl; [|discriminate].
    injection Hg as <- <-. exists policy, v, destinations, ds, egress.
    repeat split; done.
  - intros (policy & v & destinations & ds & egress & -> & -> & -> & -> & -> & Hl & ->).
    simpl. by rewrite Hl.
Qed.




(** C1 (as amended).  A policy that the validator accepts and that has
    exactly one destination, which gives a [cidr] (valid, since the
    policy was accepted) and whose ports are the list [ports], is
    translated
    into a NetworkPolicy with exactly one egress rule: its one
    address is the [cidr] as written, its ports are [ports], each
    with protocol TCP.  The resolver is not called. *)
Theorem translate_single_cidr (namespace : string)
    (policy_data policy dest c : json) (ports : list json) (v : ValidationResult) :
  load_policy policy_data = Ok policy →
  validate policy = Ok v → is_valid v = true →
  get policy "allowedDestinations" (JList []) = Ok (JList [dest]) →
  getitem dest "cidr" = Ok c →
  get dest "ports" (JList []) = Ok (JList ports) →
  ∀ st, ∃ np,
    generate_network_policy resolve namespace policy_data st = (Ok np, st)
    ∧ spec_egress np = [ {| rule_to := [ {| cidr := c |} ];
                            rule_ports := tcp_port <$> ports |} ].
Proof.
  intros Hp Hv Hvalid Hds Hc Hports st.
  exists (generated namespace [ {| rule_to := [ {| cidr := c |} ];
                                   rule_ports := tcp_port <$> ports |} ]).
  split; [|done].
  apply generate_network_policy_ok.
  exists policy, v, (JList [dest]), [dest], [ {| rule_to := [ {| cidr := c |} ];
                                                 rule_ports := tcp_port <$> ports |} ].
  repeat split; try done.
  destruct dest as [| | | | | |kv]; try discriminate.
  simpl. unfold _create_egress_rule. run_agent.
  injection Hports as ->.
  destruct (dict_get kv "cidr") as [c'|]; [|discriminate].
  by injection Hc as ->.
Qed.


(** C9.  Every NetworkPolicy that the translation returns has the
    name [egress-policy-generated], the namespace it was asked for,
    the policy types [["Egress"]] and an empty pod selector, whatever
    the policy holds. *)
Theorem generated_policy_header (namespace : string) (policy_data : json)
    (np : network_policy) (st st' : R) :
  generate_network_policy resolve namespace policy_data st = (Ok np, st') →
  metadata_name np = "egress-policy-generated"
  ∧ metadata_namespace np = namespace
  ∧ spec_policyTypes np = ["Egress"]
  ∧ spec_podSelector np = [].
Proof.
  intros Hg.
  apply generate_network_policy_ok in Hg as (? & ? & ? & ? & egress & _ & _ & _ & _ & _ & _ & ->).
  done.
Qed.

End TranslatorProperties.

(** ** The resolver *)

Lemma cache_key_strings (service : string) (regions : list string) :
  cache_key service (JList (JStr <$> regions))
  = Ok (service +:+ ":" +:+ join "," (sorted regions)).
Proof.
  unfold cache_key; simpl.
  assert (all_strings (JStr <$> regions) = Ok regions) as ->; [|done].
  induction regions as [|r rs IH]; [done|].
  rewrite fmap_cons. cbn [all_strings]. by rewrite IH.
Qed.

Lemma fetch_fails_raises (o : fetch_outcome) (service : string) (regions : json) :
  fetch_fails o → ∃ e, fetch_cidrs o service regions = Raise e.
Proof.
  unfold fetch_cidrs. destruct o as [m|m|m|j]; simpl; eauto.
  destruct j; simpl; try contradiction; eauto.
Qed.

(** On a list of regions the resolver returns, whatever the fetch does. *)
Lemma resolve_returns (self : AWSServiceResolver) (w : world)
    (service : string) (regions : list string) :
  ∃ r, resolve_service_cidrs self w service (JList (JStr <$> regions)) = Ok r.
Proof.
  unfold resolve_service_cidrs. rewrite cache_key_strings; simpl.
  destruct (cache_hit _ _ _); [by eauto|].
  destruct (fetch_cidrs _ _ _); simpl; eauto.
Qed.


(** C6.  When the address-range fetch fails, [resolve_service_cidrs],
    called on a service and a list of regions, does not raise: it
    returns a result, which is the cached value when the key is in the
    cache and fresh (no fetch is made then), and otherwise the empty
    list, the resolver being left as it was. *)
Theorem resolve_fails_soft (self : AWSServiceResolver) (w : world)
    (service : string) (regions : list string) :
  fetch_fails (http w) →
  ∃ r, resolve_service_cidrs self w service (JList (JStr <$> regions)) = Ok r
       ∧ resolver_of r = self
       ∧ (fetched r = true → cidrs_of r = [])
       ∧ (fetched r = false →
          cache_hit self w (service +:+ ":" +:+ join "," (sorted regions)) = true
          ∧ _cache self !! (service +:+ ":" +:+ join "," (sorted regions)) = Some (cidrs_of r)).
Proof.
  intros Hf. unfold resolve_service_cidrs.
  rewrite cache_key_strings; simpl.
  set (key := service +:+ ":" +:+ join "," (sorted regions)).
  destruct (cache_hit self w key) eqn:Hhit.
  - eexists. split; [done|]. simpl. repeat split; try done.
    unfold cache_hit in Hhit. apply andb_true_iff in Hhit as [Hin _].
    apply bool_decide_eq_true in Hin as [cached Hin]. by rewrite Hin.
  - destruct (fetch_fails_raises _ service (JList (JStr <$> regions)) Hf) as [e ->].
    simpl. eexists. split; [done|]. simpl. repeat split; done.
Qed.

(** A call is served from the cache exactly when its key has an entry
    and less than [_cache_ttl] seconds have passed since the resolver
    last stored a result, for whatever key. *)
Lemma resolve_fetches (self : AWSServiceResolver) (w : world)
    (service : string) (regions : json) (key : string) (r : resolution) :
  cache_key service regions = Ok key →
  resolve_service_cidrs self w service regions = Ok r →
  fetched r = negb (bool_decide (is_Some (_cache self !! key))
                    && (clock_check w - _last_fetch self <? _cache_ttl)).
Proof.
  unfold resolve_service_cidrs. intros -> Hr; simpl in Hr.
  fold (cache_hit self w key).
  destruct (cache_hit self w key); [by injection Hr as <-|].
  destruct (fetch_cidrs _ _ _); simpl in Hr; by injection Hr as <-.
Qed.

(** ** The admission gate *)

Lemma bind_Ok {A B} (a : A) (f : A → result B) : (Ok a ≫= f) = f a.
Proof. reflexivity. Qed.

Section GateProperties.
Context `{Builtins}.

Lemma subdict_get (kv o : list (string * json)) (k : string) :
  subdict kv k = Some o → get (JObj kv) k (JObj []) = Ok (JObj o).
Proof.
  unfold subdict; simpl.
  destruct (dict_get kv k) as [[]|]; simpl; congruence.
Qed.

(** The label test on a request that carries a document with labels *)
Lemma review_request_labels (req configmap labels : list (string * json)) (uid : json) :
  subdict req "object" = Some configmap →
  labels_of configmap = Some labels →
  dict_get labels "egress-controller" ≠ Some (JStr "managed") →
  review_request (JObj req) uid
  = Ok (create_admission_response true "Not an egress policy ConfigMap" uid, 200).
Proof.
  intros Ho Hl Hm. unfold review_request, labels_of in *.
  destruct (subdict configmap "metadata") as [metadata|] eqn:Hmd; [|discriminate].
  simpl in Hl.
  rewrite (subdict_get _ _ _ Ho), bind_Ok.
  assert (get (JObj req) "operation" (JStr EmptyString) = Ok (default (JStr EmptyString) (dict_get req "operation")))
    as -> by done.
  rewrite bind_Ok, (subdict_get _ _ _ Hmd), bind_Ok.
  assert (get (JObj metadata) "name" (JStr "unknown")
          = Ok (default (JStr "unknown") (dict_get metadata "name"))) as -> by done.
  rewrite !bind_Ok, (subdict_get _ _ _ Hl), bind_Ok.
  simpl.
  destruct (dict_get labels "egress-controller") as [[]|]; simpl; try done.
  destruct (String.eqb_spec s "managed") as [->|]; simpl; [|done].
  by destruct Hm.
Qed.

Lemma gate_body_request (review : json) (req : list (string * json)) :
  request_of review = Some req →
  gate_body (Ok review) = (review_request (JObj req) (uid_of review), uid_of review).
Proof.
  unfold uid_of. intros Hr. rewrite Hr.
  destruct review as [| | | | | |[|b kv]]; try discriminate.
  unfold gate_body, request_of in *.
  by rewrite (subdict_get _ _ _ Hr).
Qed.

Lemma validate_configmap_unmanaged (review : json) (configmap : list (string * json)) :
  document_of review = Some configmap →
  unmanaged configmap →
  validate_configmap (Ok review)
  = Ok (create_admission_response true "Not an egress policy ConfigMap" (uid_of review), 200).
Proof.
  unfold document_of. intros Hd (labels & Hl & Hm).
  destruct (request_of review) as [req|] eqn:Hr; [|discriminate]. simpl in Hd.
  unfold validate_configmap. rewrite (gate_body_request _ _ Hr).
  by rewrite (review_request_labels _ _ _ _ Hd Hl Hm).
Qed.

(** C7.  An admission request whose document does not carry the label
    [egress-controller=managed] is allowed, with a message that does
    not depend on the document: two such requests, whatever their
    documents hold as payload, get the same decision, the same status
    and the same message. *)
Theorem unmanaged_documents_allowed (review1 review2 : json)
    (configmap1 configmap2 : list (string * json)) :
  document_of review1 = Some configmap1 → unmanaged configmap1 →
  document_of review2 = Some configmap2 → unmanaged configmap2 →
  ∃ r1 r2 : reply,
    validate_configmap (Ok review1) = Ok r1
    ∧ validate_configmap (Ok review2) = Ok r2
    ∧ allowed r1.1 = true ∧ allowed r2.1 = true
    ∧ status_message r1.1 = status_message r2.1
    ∧ status_code r1.1 = status_code r2.1
    ∧ r1.2 = r2.2.
Proof.
  intros Hd1 Hu1 Hd2 Hu2.
  rewrite (validate_configmap_unmanaged _ _ Hd1 Hu1).
  rewrite (validate_configmap_unmanaged _ _ Hd2 Hu2).
  eexists _, _. repeat split; reflexivity.
Qed.

(** The two ways in which the body of the gate allows *)
Lemma review_request_allows (req uid : json) (r : reply) :
  review_request req uid = Ok r → allowed r.1 = true →
  status_message r.1 = "Not an egress policy ConfigMap"
  ∨ status_message r.1 = "Policy validation successful".
Proof.
  unfold review_request. intros Hr Ha.
  repeat match type of Hr with
         | (?m ≫= _) = _ => destruct m; simpl in Hr; [|discriminate]
         | (if ?b then _ else _) = _ => destruct b; simpl in Hr
         | match ?m with _ => _ end = _ => destruct m; simpl in Hr
         | Raise _ = Ok _ => discriminate
         | Ok _ = Ok _ => injection Hr as <-; simpl in *; auto; discriminate
         end.
Qed.

(** C8.  [validate_configmap] returns a reply on every input and
    never raises.  When [request.get_json] raises, the reply is a
    denial.  When an exception leaves the body of the outer [try],
    the reply is a denial with HTTP status 500 whose message is
    ["Internal validation error: "] followed by the text of the
    exception.  The gate allows only by one of the two rows of its
    decision table that allow.  It is a function of the request alone:
    it has no access to the resolver or to the cluster. *)
Theorem gate_fails_closed (request_json : result json) :
  ∃ r : reply,
    validate_configmap request_json = Ok r
    ∧ (∀ e, request_json = Raise e → allowed r.1 = false)
    ∧ (∀ e, (gate_body request_json).1 = Raise e →
            allowed r.1 = false
            ∧ status_message r.1 = "Internal validation error: " +:+ exn_str e
            ∧ r.2 = 500)
    ∧ (allowed r.1 = true →
       status_message r.1 = "Not an egress policy ConfigMap"
       ∨ status_message r.1 = "Policy validation successful").
Proof.
  unfold validate_configmap.
  destruct (gate_body request_json) as [[r|e] uid] eqn:Hb; simpl.
  - exists r. split; [done|]. split; [|split; [discriminate|]].
    + intros e ->. unfold gate_body in Hb. by injection Hb as <- _.
    + intros Ha. unfold gate_body in Hb.
      destruct request_json as [review|]; [|by injection Hb as <- _].
      destruct (negb (truthy review)); [by injection Hb as <- _|].
      destruct (get review "request" _) as [req|]; [|discriminate].
      destruct (get req "uid" _) as [uid'|]; [|discriminate].
      injection Hb as Hb _. by eapply review_request_allows.
  - eexists. split; [done|]. split; [|split].
    + intros e' ->. done.
    + intros e' [= <-]. done.
    + discriminate.
Qed.

End GateProperties.

(** ** A document without a payload *)

Section MissingPayload.
Context `{Builtins} {R : Type}.
Variable resolve : string → json → agent R (list json).

Lemma validate_empty : validate (JObj []) = Ok {| is_valid := true; errors := [] |}.
Proof. reflexivity. Qed.

(** The gate on a managed document whose data has no [policy.json] *)
Lemma review_request_missing (req configmap data : list (string * json)) (uid : json) :
  subdict req "object" = Some configmap →
  managed configmap →
  subdict configmap "data" = Some data →
  dict_get data "policy.json" = None →
  review_request (JObj req) uid
  = Ok (create_admission_response false "Missing policy.json in ConfigMap data" uid, 400).
Proof.
  intros Ho (labels & Hl & Hm) Hd Hp. unfold review_request, labels_of in *.
  destruct (subdict configmap "metadata") as [metadata|] eqn:Hmd; [|discriminate].
  simpl in Hl.
  rewrite (subdict_get _ _ _ Ho), bind_Ok.
  assert (get (JObj req) "operation" (JStr EmptyString)
          = Ok (default (JStr EmptyString) (dict_get req "operation"))) as -> by done.
  rewrite bind_Ok, (subdict_get _ _ _ Hmd), bind_Ok.
  assert (get (JObj metadata) "name" (JStr "unknown")
          = Ok (default (JStr "unknown") (dict_get metadata "name"))) as -> by done.
  rewrite !bind_Ok, (subdict_get _ _ _ Hl), bind_Ok.
  rewrite (subdict_get _ _ _ Hd).
  simpl. by rewrite Hm, Hp.
Qed.

(** C10.  When the data of a document has no [policy.json] entry, the
    translation does not fail: the payload is taken to be ['{}'],
    which the validator accepts, and the result is the NetworkPolicy
    of the namespace with no egress rule.  The admission gate denies
    a managed document with the same data, for its missing payload. *)
Theorem missing_payload_denies_all (namespace : string) (data : list (string * json)) :
  json_loads "{}" = Ok (JObj []) →
  dict_get data "policy.json" = None →
  load_policy (JObj data) = Ok (JObj [])
  ∧ validate (JObj []) = Ok {| is_valid := true; errors := [] |}
  ∧ (∀ st, generate_network_policy resolve namespace (JObj data) st
           = (Ok (generated namespace []), st))
  ∧ (∀ review configmap,
        document_of review = Some configmap →
        managed configmap →
        subdict configmap "data" = Some data →
        validate_configmap (Ok review)
        = Ok (create_admission_response false "Missing policy.json in ConfigMap data"
                (uid_of review), 400)).
Proof.
  intros Hloads Hp.
  assert (load_policy (JObj data) = Ok (JObj [])) as Hload.
  { unfold load_policy; simpl. rewrite Hp; simpl. by rewrite Hloads. }
  repeat split; try done.
  - intros st. apply generate_network_policy_ok.
    exists (JObj []), {| is_valid := true; errors := [] |}, (JList []), [], [].
    repeat split; done.
  - intros review configmap Hd Hm Hdata. unfold document_of in Hd.
    destruct (request_of review) as [req|] eqn:Hr; [|discriminate]. simpl in Hd.
    unfold validate_configmap. rewrite (gate_body_request _ _ Hr).
    by rewrite (review_request_missing _ _ _ _ Hd Hm Hdata Hp).
Qed.

End MissingPayload.

(** * Sample runs *)

Import Sample.

(** The tests of the repository *)

Example test_valid_policy_with_cidr :
  @validate table (policy_of [onprem]) = Ok {| is_valid := true; errors := [] |}.
Proof. reflexivity. Qed.

Example test_missing_required_fields :
  @validate table (JObj [("allowedDestinations", JList [JObj [("cidr", JStr "10.1.0.0/16")]])])
  = Ok {| is_valid := false;
          errors := ["Destination 0: missing 'name' field";
                     "Destination 0: missing 'ports' field"] |}.
Proof. reflexivity. Qed.

Example test_cache_functionality :
  let call := call_at 1000 "s3" (Payload (JObj [("prefixes", JList [])])) in
  fetches new_resolver [call; call] = Some [true; false].
Proof. reflexivity. Qed.

Example test_aws_service_to_networkpolicy :
  (@generate_network_policy table _ mock_resolve "tenant-a"
     (data_of (policy_of [s3_access; onprem; rds_access])) ()).1
  = Ok (generated "tenant-a"
          [ {| rule_to := [ {| cidr := JStr "52.216.0.0/15" |} ];
               rule_ports := [ tcp_port (JInt 443) ] |};
            {| rule_to := [ {| cidr := JStr "10.1.0.0/16" |} ];
               rule_ports := [ tcp_port (JInt 443); tcp_port (JInt 80) ] |};
            {| rule_to := [ {| cidr := JStr "52.216.0.0/15" |} ];
               rule_ports := [ tcp_port (JInt 5432) ] |} ]).
Proof. reflexivity. Qed.

Example test_invalid_policy_handling :
  (@generate_network_policy table _ mock_resolve "tenant-a"
     (JObj [("policy.json", JStr "invalid-json")]) ()).1
  = Raise (ValueError "Invalid JSON in policy: Expecting value: line 1 column 1 (char 0)").
Proof. reflexivity. Qed.

Example test_missing_policy_json :
  @validate_configmap table
    (Ok (review_of managed_label (JObj [("other-data", JStr "not-policy")])))
  = Ok (create_admission_response false "Missing policy.json in ConfigMap data"
          (JStr "test-uid-123"), 400).
Proof. reflexivity. Qed.

(** C3: a wrong [defaultAction] and a [destinations] field that is not
    a list give two errors, not one. *)
Example validate_abort_two_errors :
  @validate table (JObj [("defaultAction", JStr "bogus"); ("allowedDestinations", JStr "x")])
  = Ok {| is_valid := false;
          errors := ["Invalid defaultAction: bogus"; "allowedDestinations must be a list"] |}.
Proof. reflexivity. Qed.

(** C3 as the specification states it does not hold: a policy whose
    destinations field is present and is not a list need not get
    exactly one error. *)
Lemma validate_abort_not_single_error :
  ¬ (∀ (B : Builtins) (kv : list (string * json)) (d : json),
        dict_get kv "allowedDestinations" = Some d →
        (∀ ds, d ≠ JList ds) →
        ∃ r, validate (JObj kv) = Ok r ∧ length (errors r) = 1%nat).
Proof.
  intros Hclaim.
  destruct (Hclaim table
              [("defaultAction", JStr "bogus"); ("allowedDestinations", JStr "x")]
              (JStr "x") eq_refl) as (r & Hr & Hlen); [done|].
  rewrite validate_abort_two_errors in Hr. injection Hr as <-. discriminate.
Qed.

(** C1: the validator accepts a policy whose one destination gives a
    [cidr] and the port 443 outside a list; the translation of that
    policy raises. *)
Example translate_bare_port_raises :
  @validate Scenario.table (policy_of [Scenario.db_bare_port])
  = Ok {| is_valid := true; errors := [] |}
  ∧ @generate_network_policy Scenario.table _ mock_resolve "tenant-a"
      (data_of (policy_of [Scenario.db_bare_port])) ()
    = (Raise (TypeError "'int' object is not iterable"), ()).
Proof. split; reflexivity. Qed.

(** C1 as the specification states it does not hold: an accepted
    policy with one destination that gives a valid [cidr] need not be
    translated into a rule. *)
Lemma translate_single_cidr_needs_port_list :
  ¬ (∀ (B : Builtins) (policy_data policy dest c : json) (v : ValidationResult),
        load_policy policy_data = Ok policy →
        validate policy = Ok v → is_valid v = true →
        get policy "allowedDestinations" (JList []) = Ok (JList [dest]) →
        getitem dest "cidr" = Ok c →
        ∃ np rule,
          generate_network_policy mock_resolve "tenant-a" policy_data () = (Ok np, ())
          ∧ spec_egress np = [rule] ∧ rule_to rule = [ {| cidr := c |} ]).
Proof.
  intros Hclaim.
  destruct (Hclaim Scenario.table (data_of (policy_of [Scenario.db_bare_port]))
              (policy_of [Scenario.db_bare_port]) Scenario.db_bare_port
              (JStr "10.1.0.0/16") {| is_valid := true; errors := [] |}
              eq_refl eq_refl eq_refl eq_refl eq_refl) as (np & rule & Hg & _).
  destruct translate_bare_port_raises as [_ Hraise].
  rewrite Hraise in Hg. discriminate.
Qed.

(** C2: the same with a service target.  The translation raises
    before the resolver is called. *)
Example translate_service_bare_port_raises :
  @validate Scenario.table (policy_of [Scenario.s3_bare_port])
  = Ok {| is_valid := true; errors := [] |}
  ∧ @generate_network_policy Scenario.table _ (aws_resolve worlds) "tenant-a"
      (data_of (policy_of [Scenario.s3_bare_port])) fresh_agent
    = (Raise (TypeError "'int' object is not iterable"), fresh_agent).
Proof. split; reflexivity. Qed.


Lemma validate_collects_all_errors_witness :
  let kv := [("defaultAction", JStr "bogus");
             ("allowedDestinations", JList [onprem; JObj [("cidr", JStr "bad")]])] in
  @validate table (JObj kv)
  = Ok {| is_valid := false;
          errors := ["Invalid defaultAction: bogus";
                     "Destination 1: missing 'name' field";
                     "Destination 1: missing 'ports' field";
                     "Destination 1: Invalid CIDR format: bad"] |}.
Proof.
  intros kv.
  destruct (@validate_collects_all_errors table kv) as [Hdict _].
  destruct (Hdict I) as [Hlist _].
  rewrite (Hlist [onprem; JObj [("cidr", JStr "bad")]] eq_refl).
  - reflexivity.
  - repeat constructor; eexists; (split; [reflexivity|]); simpl; discriminate.
Defined.

Lemma validate_both_targets_witness :
  @validate table (policy_of [both_targets])
  = Ok {| is_valid := false;
          errors := ["Destination 0: cannot specify both 'cidr' and 'awsService'"] |}.
Proof.
  apply (@validate_both_targets table
           [("defaultAction", JStr "deny"); ("allowedDestinations", JList [both_targets])]
           [("name", JStr "both"); ("cidr", JStr "10.1.0.0/16"); ("awsService", JStr "S3");
            ("regions", JList [JStr "us-east-1"]); ("ports", JList [JInt 443])]
           (JStr "both") (JList [JInt 443]) (JStr "10.1.0.0/16")
           (JList [JStr "us-east-1"]) "S3"); reflexivity.
Defined.

Lemma translate_single_cidr_witness :
  ∃ np,
    @generate_network_policy table _ (aws_resolve worlds) "tenant-a"
      (data_of (policy_of [onprem])) fresh_agent = (Ok np, fresh_agent)
    ∧ spec_egress np
      = [ {| rule_to := [ {| cidr := JStr "10.1.0.0/16" |} ];
             rule_ports := [ {| protocol := "TCP"; port := JInt 443 |};
                             {| protocol := "TCP"; port := JInt 80 |} ] |} ].
Proof.
  apply (@translate_single_cidr table _ (aws_resolve worlds) "tenant-a"
           (data_of (policy_of [onprem])) (policy_of [onprem]) onprem
           (JStr "10.1.0.0/16") [JInt 443; JInt 80]
           {| is_valid := true; errors := [] |}); reflexivity.
Defined.


Lemma generated_policy_header_witness :
  ∃ np st',
    @generate_network_policy table _ (aws_resolve worlds) "tenant-a"
      (data_of (policy_of [s3_access; onprem; rds_access])) fresh_agent = (Ok np, st')
    ∧ metadata_name np = "egress-policy-generated"
    ∧ metadata_namespace np = "tenant-a"
    ∧ spec_policyTypes np = ["Egress"]
    ∧ spec_podSelector np = [].
Proof.
  destruct (@generate_network_policy table _ (aws_resolve worlds) "tenant-a"
              (data_of (policy_of [s3_access; onprem; rds_access])) fresh_agent)
    as [[np|e] st'] eqn:Hg; [|by vm_compute in Hg].
  exists np, st'. split; [reflexivity|].
  exact (@generated_policy_header table _ (aws_resolve worlds) "tenant-a" _ np _ st' Hg).
Defined.

(** C5 on the code.  The key of S3 is fetched at time 1000.  At time
    5000 its entry is 4000 seconds old, more than [_cache_ttl], and a
    call on it fetches again.  A fetch for the key of EC2 at time 4000
    changes that: the call on the key of S3 at time 5000 is then served
    from the cache, with the addresses of time 1000, although the
    address table has changed since. *)
Theorem shared_clock_extends_freshness :
  let s3_first := call_at 1000 "s3" (Payload ip_ranges) in
  let ec2 := call_at 4000 "ec2" (Payload ip_ranges) in
  let s3_again := call_at 5000 "s3" (Payload ip_ranges_later) in
  fetches new_resolver [s3_first; s3_again] = Some [true; true]
  ∧ fetches new_resolver [s3_first; ec2; s3_again] = Some [true; true; false]
  ∧ (cidrs_of <$> last (default [] (match resolve_all new_resolver [s3_first; ec2; s3_again] with
                                    | Ok rs => Some rs
                                    | Raise _ => None
                                    end)))
    = Some [JStr "52.216.0.0/15"; JStr "54.231.0.0/17"]
  ∧ cache_key "s3" (JList [JStr "us-east-1"]) ≠ cache_key "ec2" (JList [JStr "us-east-1"]).
Proof. repeat split; try reflexivity. discriminate. Qed.

(** Freshness is not per key in the code. *)
Lemma per_key_freshness_fails : ¬ per_key_freshness.
Proof.
  intros Hclaim.
  specialize (Hclaim [call_at 1000 "s3" (Payload ip_ranges)]
                     [call_at 1000 "s3" (Payload ip_ranges);
                      call_at 4000 "ec2" (Payload ip_ranges)]
                     (call_at 5000 "s3" (Payload ip_ranges_later))
                     "s3:us-east-1" eq_refl eq_refl).
  discriminate.
Qed.

Lemma resolve_fails_soft_witness :
  ∃ r, resolve_service_cidrs new_resolver (at_time 1000 (NetworkError "timed out"))
         "s3" (JList (JStr <$> ["us-west-2"; "us-east-1"])) = Ok r
       ∧ resolver_of r = new_resolver
       ∧ (fetched r = true → cidrs_of r = [])
       ∧ (fetched r = false →
          cache_hit new_resolver (at_time 1000 (NetworkError "timed out"))
            ("s3" +:+ ":" +:+ join "," (sorted ["us-west-2"; "us-east-1"])) = true
          ∧ _cache new_resolver !! ("s3" +:+ ":" +:+ join "," (sorted ["us-west-2"; "us-east-1"]))
            = Some (cidrs_of r)).
Proof.
  apply (resolve_fails_soft new_resolver (at_time 1000 (NetworkError "timed out"))
           "s3" ["us-west-2"; "us-east-1"]).
  exact I.
Defined.

(** Two documents without the label: one with no payload at all, one
    whose payload is not even JSON. *)
Lemma unmanaged_documents_allowed_witness :
  ∃ r1 r2 : reply,
    @validate_configmap table
      (Ok (review_of [("app", JStr "some-app")] (JObj [("config.yaml", JStr "some: config")])))
    = Ok r1
    ∧ @validate_configmap table
        (Ok (review_of [] (JObj [("policy.json", JStr "invalid-json")])))
      = Ok r2
    ∧ allowed r1.1 = true ∧ allowed r2.1 = true
    ∧ status_message r1.1 = status_message r2.1
    ∧ status_code r1.1 = status_code r2.1
    ∧ r1.2 = r2.2.
Proof.
  eapply (@unmanaged_documents_allowed table).
  - reflexivity.
  - eexists. split; [reflexivity|]. discriminate.
  - reflexivity.
  - eexists. split; [reflexivity|]. discriminate.
Defined.

(** A managed document whose payload is the JSON text of a list: the
    validator raises on it, and the gate denies. *)
Lemma gate_fails_closed_witness :
  ∃ r : reply,
    @validate_configmap table (Ok (review_of managed_label (data_of (JList [])))) = Ok r
    ∧ allowed r.1 = false
    ∧ status_message r.1
      = "Internal validation error: 'list' object has no attribute 'get'"
    ∧ r.2 = 500.
Proof.
  destruct (@gate_fails_closed table
              (Ok (review_of managed_label (data_of (JList [])))))
    as (r & Hr & _ & Hraise & _).
  exists r. split; [exact Hr|].
  apply (Hraise (AttributeError "'list' object has no attribute 'get'")).
  reflexivity.
Defined.

Lemma missing_payload_denies_all_witness :
  let data := [("other-data", JStr "not-policy")] in
  @load_policy table (JObj data) = Ok (JObj [])
  ∧ @validate table (JObj []) = Ok {| is_valid := true; errors := [] |}
  ∧ (∀ st, @generate_network_policy table _ (aws_resolve worlds) "tenant-c" (JObj data) st
           = (Ok (generated "tenant-c" []), st))
  ∧ @validate_configmap table (Ok (review_of managed_label (JObj data)))
    = Ok (create_admission_response false "Missing policy.json in ConfigMap data"
            (JStr "test-uid-123"), 400).
Proof.
  intros data.
  destruct (@missing_payload_denies_all table _ (aws_resolve worlds) "tenant-c" data
              eq_refl eq_refl) as (Hload & Hvalid & Hgen & Hgate).
  split; [exact Hload|]. split; [exact Hvalid|]. split; [exact Hgen|].
  apply (Hgate (review_of managed_label (JObj data))
               [("metadata", JObj [("name", JStr "egress-policy");
                                   ("namespace", JStr "tenant-a");
                                   ("labels", JObj managed_label)]);
                ("data", JObj data)]).
  - reflexivity.
  - eexists. split; reflexivity.
  - reflexivity.
Defined.


(** * Further properties *)

Set Warnings "-clear-no-such-hyp".

(** ** The validator *)

Section ValidatorExtras.
Context `{Builtins}.

(** X1.  In every result that [validate] returns, [is_valid] holds
    exactly when there is no error. *)
Theorem validate_valid_iff_no_errors (policy : json) (r : ValidationResult) :
  validate policy = Ok r → (is_valid r = true ↔ errors r = []).
Proof.
  unfold validate. intros Hv.
  destruct (get policy "defaultAction" _) as [da|]; [|discriminate]; simpl in Hv.
  destruct (in_set da VALID_ACTIONS) as [known|]; [|discriminate]; simpl in Hv.
  destruct (get policy "allowedDestinations" _) as [dv|]; [|discriminate]; simpl in Hv.
  destruct dv;
    try (injection Hv as <-; simpl; split; [discriminate|];
         intros H0; by apply app_eq_nil in H0 as [_ ?]).
  destruct (validate_loop l 0 _) as [errs|]; [|discriminate]; simpl in Hv.
  injection Hv as <-. simpl. rewrite bool_decide_eq_true. apply length_zero_iff_nil.
Qed.

Lemma check_nil (b : bool) (msg : string) : check b msg = [] ↔ b = false.
Proof. destruct b; simpl; split; congruence. Qed.

Lemma destination_errors_nil (i : nat) (dest : json) :
  checkable dest → (destination_errors i dest = [] ↔ acceptable_destination dest).
Proof.
  intros (kv & -> & Hstr). unfold destination_errors, acceptable_destination, has_key.
  assert (∀ o : option json, bool_decide (is_Some o) = match o with Some _ => true | None => false end)
    as Hsome.
  { intros [x|]; [by apply bool_decide_eq_true_2|].
    apply bool_decide_eq_false_2. by intros [? ?]. }
  rewrite !Hsome.
  destruct (dict_get kv "cidr") as [c|] eqn:Hc;
    destruct (dict_get kv "awsService") as [a|] eqn:Ha;
    try (destruct (Hstr a eq_refl) as [s ->]);
    destruct (truthy (default JNull (dict_get kv "name"))) eqn:Hn;
    destruct (truthy (default JNull (dict_get kv "ports"))) eqn:Hp;
    simpl.
  all: try (split; [discriminate|];
            intros (kv' & [= <-] & Hn' & Hp' & Ht); rewrite ?Hn, ?Hp in *;
            try discriminate;
            destruct Ht as [(c' & ? & ? & ?)|(? & s' & ? & ? & ?)]; congruence).
  - destruct (ip_network_ok c) eqn:Hok; simpl.
    + split; [|done]. intros _. exists kv. rewrite Hn, Hp, Hc, Ha.
      do 3 (split; [done|]). left. by exists c.
    + split; [discriminate|].
      intros (kv' & [= <-] & Hn' & Hp' & [(c' & ? & ? & ?)|(? & s' & ? & ? & ?)]); congruence.
  - destruct (bool_decide (str_lower s ∈ VALID_AWS_SERVICES)) eqn:Hs;
      destruct (truthy (default JNull (dict_get kv "regions"))) eqn:Hr; simpl.
    + split; [|done]. intros _. exists kv. rewrite Hn, Hp, Hc, Ha.
      do 3 (split; [done|]). right. split; [done|]. exists s.
      split; [done|]. split; [by apply bool_decide_eq_true in Hs|done].
    + split; [discriminate|].
      intros (kv' & [= <-] & Hn' & Hp' & [(c' & ? & ? & ?)|(? & s' & ? & ? & ?)]); congruence.
    + split; [discriminate|].
      intros (kv' & [= <-] & Hn' & Hp' & [(c' & ? & ? & ?)|(? & s' & Hs' & Hin & ?)]);
        [congruence|].
      rewrite Ha in Hs'. injection Hs' as <-.
      apply bool_decide_eq_false in Hs. contradiction.
    + split; [discriminate|].
      intros (kv' & [= <-] & Hn' & Hp' & [(c' & ? & ? & ?)|(? & s' & ? & ? & ?)]); congruence.
Qed.

Lemma concat_imap_nil {A B} (f : nat → A → list B) (l : list A) :
  concat (imap f l) = [] ↔ ∀ i x, l !! i = Some x → f i x = [].
Proof.
  revert f. induction l as [|a l IH]; intros f; simpl.
  - split; [by intros _ i x|done].
  - split.
    + intros [Ha Hl]%app_eq_nil i x Hi. destruct i as [|i]; simpl in Hi.
      * by injection Hi as <-.
      * by apply (proj1 (IH (f ∘ S)) Hl i x).
    + intros Hall. rewrite (Hall 0%nat a eq_refl); simpl.
      apply IH. intros i x Hi. by apply (Hall (S i) x).
Qed.

Lemma acceptable_destination_checkable (dest : json) :
  acceptable_destination dest → checkable dest.
Proof.
  intros (kv & -> & _ & _ & Ht). exists kv. split; [done|]. intros a Ha.
  destruct Ht as [(c & _ & _ & Hn)|(_ & s & Hs & _)]; [congruence|].
  rewrite Hs in Ha. injection Ha as <-. eauto.
Qed.

(** A policy on which [validate] returns the valid result is acceptable. *)
Lemma validate_Ok_acceptable (policy : json) :
  validate policy = Ok {| is_valid := true; errors := [] |} → acceptable policy.
Proof.
  intros Hv.
  destruct policy as [| | | | | |kv]; try discriminate.
  pose proof Hv as Hv0. unfold validate in Hv; simpl in Hv.
  destruct (in_set _ VALID_ACTIONS) as [known|] eqn:Hin; [|discriminate]; simpl in Hv.
  destruct (default (JList []) (dict_get kv "allowedDestinations")) as [| | | | |ds|] eqn:Hd;
    try discriminate.
  assert (Forall checkable ds) as Hc.
  { eapply validate_ok_destinations; [exact Hv0|]. simpl. by rewrite Hd. }
  assert (hashable (default (JStr "deny") (dict_get kv "defaultAction"))) as Hh.
  { destruct (default _ _); simpl in *; try done; discriminate. }
  rewrite (validate_list kv ds Hh Hd Hc) in Hv0. injection Hv0 as _ He.
  apply app_eq_nil in He as [Ha Hds].
  exists kv, ds. split; [done|]. split; [|split; [done|]].
  + unfold action_errors in Ha. rewrite Hin in Ha. apply check_nil, negb_false_iff in Ha.
    subst known.
    destruct (dict_get kv "defaultAction") as [da|]; [|by left]. right. simpl in Hin.
    destruct da; simpl in Hin; try discriminate.
    injection Hin as Hk. apply bool_decide_eq_true in Hk.
    unfold VALID_ACTIONS in Hk. set_solver.
  + apply Forall_lookup. intros i d Hi.
    apply (destination_errors_nil i); [by eapply Forall_lookup_1|].
    by apply (proj1 (concat_imap_nil _ _) Hds).
Qed.

(** On an acceptable policy [validate] returns the valid result. *)
Lemma acceptable_validate (policy : json) :
  acceptable policy → validate policy = Ok {| is_valid := true; errors := [] |}.
Proof.
  intros (kv & ds & -> & Ha & Hd & Hds).
  assert (Forall checkable ds) as Hc.
  { eapply Forall_impl; [exact Hds|]. apply acceptable_destination_checkable. }
  assert (hashable (default (JStr "deny") (dict_get kv "defaultAction"))) as Hh.
  { by destruct Ha as [->|[->| ->]]. }
  rewrite (validate_list kv ds Hh Hd Hc).
  assert (action_errors (default (JStr "deny") (dict_get kv "defaultAction")) = []) as ->.
  { by destruct Ha as [->|[->| ->]]. }
  assert (concat (imap destination_errors ds) = []) as ->; [|done].
  apply concat_imap_nil. intros i d Hi.
  apply destination_errors_nil; [|by eapply Forall_lookup_1].
  by eapply Forall_lookup_1.
Qed.

(** A result that [validate] returns as valid has no error. *)
Lemma validate_valid_errors (policy : json) (r : ValidationResult) :
  validate policy = Ok r → is_valid r = true → errors r = [].
Proof.
  unfold validate. intros Hv.
  destruct (get policy "defaultAction" _) as [da|]; [|discriminate]; simpl in Hv.
  destruct (in_set da VALID_ACTIONS) as [known|]; [|discriminate]; simpl in Hv.
  destruct (get policy "allowedDestinations" _) as [dv|]; [|discriminate]; simpl in Hv.
  destruct dv; try (injection Hv as <-; discriminate).
  destruct (validate_loop l 0 _) as [errs|]; [|discriminate]; simpl in Hv.
  injection Hv as <-. simpl. rewrite bool_decide_eq_true. apply length_zero_iff_nil.
Qed.

(** X2.  [validate] returns a valid result exactly on the acceptable
    policies: objects whose [defaultAction] is absent, ["allow"] or
    ["deny"] and whose destinations are absent or a list of objects
    with a truthy name and ports and exactly one target, a [cidr] that
    [ip_network] takes or a supported service with regions. *)
Theorem validate_accepts_iff (policy : json) :
  validate policy = Ok {| is_valid := true; errors := [] |} ↔ acceptable policy.
Proof.
  split.
  - apply validate_Ok_acceptable.
  - apply acceptable_validate.
Qed.

Lemma elem_of_check (e : string) (b : bool) (msg : string) :
  e ∈ check b msg → e = msg.
Proof. destruct b; simpl; set_solver. Qed.

Lemma destination_errors_msg (i : nat) (dest : json) (e : string) :
  e ∈ destination_errors i dest → ∃ what, e = destination_msg i what.
Proof.
  destruct dest as [| | | | | |kv]; simpl; try by intros ?%elem_of_nil.
  rewrite !elem_of_app.
  intros [He|[He|[He|[He|[He|He]]]]];
    try (apply elem_of_check in He; by eauto).
  - destruct (dict_get kv "cidr"); [|by apply elem_of_nil in He].
    apply elem_of_check in He. eauto.
  - destruct (dict_get kv "awsService") as [[]|]; try by apply elem_of_nil in He.
    apply elem_of_app in He as [He|He]; apply elem_of_check in He; eauto.
Qed.

(** X3.  Every error of a result that [validate] returns on a policy
    whose destinations are a list is the error about [defaultAction]
    or an error of one destination of the list, and then it starts
    with the index of that destination. *)
Theorem validate_errors_located (policy : json) (r : ValidationResult) (ds : list json) :
  validate policy = Ok r →
  get policy "allowedDestinations" (JList []) = Ok (JList ds) →
  ∀ e, e ∈ errors r →
    (∃ action, e = "Invalid defaultAction: " +:+ action)
    ∨ (∃ j dest what, ds !! j = Some dest
                      ∧ e ∈ destination_errors j dest
                      ∧ e = destination_msg j what).
Proof.
  intros Hv Hds e He.
  pose proof (validate_ok_destinations _ _ _ Hv Hds) as Hc.
  destruct policy as [| | | | | |kv]; try discriminate.
  assert (hashable (default (JStr "deny") (dict_get kv "defaultAction"))) as Hh.
  { unfold validate in Hv; simpl in Hv.
    destruct (default (JStr "deny") (dict_get kv "defaultAction")); simpl in *;
      try done; discriminate. }
  injection Hds as Hds.
  rewrite (validate_list kv ds Hh Hds Hc) in Hv. injection Hv as <-. simpl in He.
  apply elem_of_app in He as [He|He].
  - left. unfold action_errors in He. destruct (in_set _ _); [|set_solver].
    apply elem_of_check in He. eauto.
  - right. apply list_elem_of_In, in_concat in He as (errs & Herrs & He).
    apply list_elem_of_In, elem_of_lookup_imap in Herrs as (j & dest & -> & Hj).
    apply list_elem_of_In in He.
    destruct (destination_errors_msg _ _ _ He) as [what ->]. by exists j, dest, what.
Qed.

(** X4.  The validator looks at the ports of a destination only to see
    that they are there: two destinations that differ only in their
    ports, both truthy or both not, get the same errors.  No type and
    no range of a port is checked. *)
Theorem validate_ignores_port_values (kv kv' : list (string * json))
    (i : nat) (errs : list string) :
  (∀ k, k ≠ "ports" → dict_get kv k = dict_get kv' k) →
  truthy (default JNull (dict_get kv "ports"))
  = truthy (default JNull (dict_get kv' "ports")) →
  _validate_destination (JObj kv) i errs = _validate_destination (JObj kv') i errs.
Proof.
  intros Hk Hp. unfold _validate_destination; simpl.
  rewrite Hp, (Hk "name"), (Hk "cidr"), (Hk "awsService"), (Hk "regions") by done.
  reflexivity.
Qed.

End ValidatorExtras.

(** ** The resolver *)

Lemma contains_region (regions : list string) (r : string) :
  contains (JList (JStr <$> regions)) (JStr r) = Ok (bool_decide (r ∈ regions)).
Proof.
  cbn [contains contains_str]. f_equal. induction regions as [|x xs IH].
  - symmetry. apply bool_decide_eq_false_2. by intros ?%elem_of_nil.
  - rewrite fmap_cons. cbn [existsb is_str]. rewrite IH.
    destruct (String.eqb_spec x r) as [->|Hne]; simpl.
    + symmetry. apply bool_decide_eq_true_2. by left.
    + apply bool_decide_ext. rewrite elem_of_cons. naive_solver.
Qed.

(** One round of the loop over the entries *)
Lemma prefix_loop_entry (service_upper : string) (regions : list string)
    (entry : list (string * json)) (rest : list json) (acc : list json) :
  prefix_loop service_upper (JList (JStr <$> regions)) (JObj entry :: rest) acc
  = if entry_matches service_upper regions entry then
      match dict_get entry "ip_prefix" with
      | Some ip_prefix =>
          prefix_loop service_upper (JList (JStr <$> regions)) rest (acc ++ [ip_prefix])
      | None => Raise (KeyError "'ip_prefix'")
      end
    else prefix_loop service_upper (JList (JStr <$> regions)) rest acc.
Proof.
  cbn [prefix_loop]. unfold entry_matches.
  change (get (JObj entry) "service" JNull)
    with (Ok (A:=json) (default JNull (dict_get entry "service"))).
  change (get (JObj entry) "region" JNull)
    with (Ok (A:=json) (default JNull (dict_get entry "region"))).
  rewrite bind_Ok.
  destruct (dict_get entry "service") as [[| | | |s| |]|]; try reflexivity.
  cbn [from_option id is_str]. destruct (String.eqb s service_upper);
    [|by destruct (dict_get entry "region") as [[]|]].
  rewrite bind_Ok.
  destruct (dict_get entry "region") as [[| | | |r| |]|]; try reflexivity.
  cbn [from_option id]. rewrite contains_region, bind_Ok. cbn [andb].
  destruct (bool_decide (r ∈ regions)); [|done].
  unfold getitem. by destruct (dict_get entry "ip_prefix").
Qed.

Lemma matching_cons (service_upper : string) (regions : list string)
    (entry : list (string * json)) (entries : list (list (string * json))) :
  matching service_upper regions (entry :: entries)
  = if entry_matches service_upper regions entry
    then entry :: matching service_upper regions entries
    else matching service_upper regions entries.
Proof.
  unfold matching. rewrite filter_cons.
  destruct (entry_matches service_upper regions entry).
  - by rewrite decide_True.
  - by rewrite decide_False.
Qed.

Lemma prefix_loop_matching (service_upper : string) (regions : list string)
    (entries : list (list (string * json))) (acc : list json) :
  Forall (λ entry, is_Some (dict_get entry "ip_prefix"))
         (matching service_upper regions entries) →
  prefix_loop service_upper (JList (JStr <$> regions)) (JObj <$> entries) acc
  = Ok (acc ++ omap (λ entry, dict_get entry "ip_prefix")
                    (matching service_upper regions entries)).
Proof.
  revert acc. induction entries as [|entry entries IH]; intros acc Hall.
  - simpl. by rewrite app_nil_r.
  - rewrite fmap_cons, prefix_loop_entry. rewrite matching_cons in *.
    destruct (entry_matches service_upper regions entry); [|by apply IH].
    inversion Hall as [|? ? [ip Hip] Hrest]; subst.
    rewrite Hip, IH by done.
    change (omap ?f (entry :: ?l)) with (from_option (λ y, y :: omap f l) (omap f l) (f entry)).
    cbv beta. rewrite Hip. by rewrite <- app_assoc.
Qed.

Lemma prefix_loop_missing (service_upper : string) (regions : list string)
    (entries : list (list (string * json))) (acc : list json) :
  ¬ Forall (λ entry, is_Some (dict_get entry "ip_prefix"))
           (matching service_upper regions entries) →
  ∃ e, prefix_loop service_upper (JList (JStr <$> regions)) (JObj <$> entries) acc = Raise e.
Proof.
  revert acc. induction entries as [|entry entries IH]; intros acc Hnot.
  - destruct Hnot. constructor.
  - rewrite fmap_cons, prefix_loop_entry. rewrite matching_cons in Hnot.
    destruct (entry_matches service_upper regions entry); [|by apply IH].
    destruct (dict_get entry "ip_prefix") as [ip|] eqn:Hip; [|by eauto].
    apply IH. intros Hrest. apply Hnot. constructor; [by eexists|done].
Qed.

(** X5.  On a table whose [prefixes] are dicts, whatever their keys,
    and for an ASCII service name and a list of region strings, the
    resolver computes exactly the [ip_prefix] of the entries whose
    service is the upper-cased service name and whose region is one
    of the regions, in the order of the table.  When one of these
    entries has no [ip_prefix], the fetch raises. *)
Theorem fetch_cidrs_matching (table : list (string * json))
    (entries : list (list (string * json))) (service : string) (regions : list string) :
  is_ascii service = true →
  dict_get table "prefixes" = Some (JList (JObj <$> entries)) →
  let found := matching (str_upper service) regions entries in
  (Forall (λ entry, is_Some (dict_get entry "ip_prefix")) found →
   fetch_cidrs (Payload (JObj table)) service (JList (JStr <$> regions))
   = Ok (omap (λ entry, dict_get entry "ip_prefix") found))
  ∧ (¬ Forall (λ entry, is_Some (dict_get entry "ip_prefix")) found →
     ∃ e, fetch_cidrs (Payload (JObj table)) service (JList (JStr <$> regions)) = Raise e).
Proof.
  intros _ Hp found. unfold fetch_cidrs; simpl. rewrite Hp; simpl. split.
  - intros Hall. by rewrite prefix_loop_matching.
  - intros Hnot. by apply prefix_loop_missing.
Qed.

(** X6.  The cache key does not depend on the order of the regions. *)
Theorem cache_key_permutation (service : string) (regions1 regions2 : list string) :
  regions1 ≡ₚ regions2 →
  cache_key service (JList (JStr <$> regions1)) = cache_key service (JList (JStr <$> regions2)).
Proof.
  intros Hp. rewrite !cache_key_strings. do 4 f_equal. unfold sorted.
  apply (Sorted_unique String.le); try apply Sorted_merge_sort; try apply _.
  by rewrite !merge_sort_Permutation.
Qed.

(** X7.  After a call that missed the cache and whose fetch succeeded,
    a call on the same key whose clock reads less than [_cache_ttl]
    after the result was stored returns the same addresses without a
    fetch, and leaves the resolver as it is. *)
Theorem resolve_then_cached (self : AWSServiceResolver) (w1 w2 : world)
    (service1 service2 : string) (regions1 regions2 : json) (key : string)
    (cidrs : list json) :
  cache_key service1 regions1 = Ok key →
  cache_key service2 regions2 = Ok key →
  cache_hit self w1 key = false →
  fetch_cidrs (http w1) service1 regions1 = Ok cidrs →
  clock_check w2 - clock_store w1 < _cache_ttl →
  ∃ self',
    resolve_service_cidrs self w1 service1 regions1
    = Ok {| cidrs_of := cidrs; fetched := true; resolver_of := self' |}
    ∧ resolve_service_cidrs self' w2 service2 regions2
      = Ok {| cidrs_of := cidrs; fetched := false; resolver_of := self' |}.
Proof.
  intros Hk1 Hk2 Hmiss Hfetch Hfresh. unfold resolve_service_cidrs.
  rewrite Hk1, Hk2; simpl. rewrite Hmiss, Hfetch; simpl.
  eexists. split; [reflexivity|].
  unfold cache_hit; simpl. rewrite lookup_insert_eq; simpl.
  by rewrite (proj2 (Z.ltb_lt _ _) Hfresh).
Qed.

(** X8.  A call never touches the cache entry of another key and never
    removes an entry: the cache only receives, under the key of the
    call, the result of a fetch that succeeded. *)
Theorem resolve_keeps_entries (self : AWSServiceResolver) (w : world)
    (service : string) (regions : json) (key : string) (r : resolution) :
  cache_key service regions = Ok key →
  resolve_service_cidrs self w service regions = Ok r →
  (∀ k, k ≠ key → _cache (resolver_of r) !! k = _cache self !! k)
  ∧ (∀ k, is_Some (_cache self !! k) → is_Some (_cache (resolver_of r) !! k))
  ∧ (_cache (resolver_of r) !! key = _cache self !! key
     ∨ fetch_cidrs (http w) service regions = Ok (cidrs_of r)
       ∧ _cache (resolver_of r) !! key = Some (cidrs_of r)).
Proof.
  unfold resolve_service_cidrs. intros -> Hr; simpl in Hr.
  destruct (cache_hit self w key); [injection Hr as <-; simpl; by eauto|].
  destruct (fetch_cidrs _ _ _) as [cidrs|e]; simpl in Hr; injection Hr as <-; simpl;
    [|by eauto].
  split; [|split].
  - intros k Hk. by rewrite lookup_insert_ne.
  - intros k Hk. destruct (decide (key = k)) as [->|Hne].
    + rewrite lookup_insert_eq. eauto.
    + by rewrite lookup_insert_ne.
  - right. by rewrite lookup_insert_eq.
Qed.

(** ** The translator *)

Section TranslatorExtras.
Context `{Builtins} {R : Type}.
Variable resolve : string → json → agent R (list json).

Lemma validate_valid_acceptable (policy : json) (v : ValidationResult) :
  validate policy = Ok v → is_valid v = true → acceptable policy.
Proof.
  intros Hv Hvalid. apply validate_Ok_acceptable. rewrite Hv. f_equal.
  pose proof (validate_valid_errors _ _ Hv Hvalid) as Herrs.
  destruct v as [b errs]; simpl in *. by subst.
Qed.

(** X9.  The translation returns only on a payload that loads as an
    acceptable policy.  On any other payload (text that is not JSON, a
    policy that the validator rejects or cannot check) it raises, and
    the resolver is left as it was: nothing is resolved for a policy
    that is not accepted. *)
Theorem translate_rejects_untouched (namespace : string) (policy_data : json) (st : R) :
  (∀ np st', generate_network_policy resolve namespace policy_data st = (Ok np, st') →
             ∃ policy, load_policy policy_data = Ok policy ∧ acceptable policy)
  ∧ ((∀ policy, load_policy policy_data = Ok policy → ¬ acceptable policy) →
     ∃ e, generate_network_policy resolve namespace policy_data st = (Raise e, st)).
Proof.
  split.
  - intros np st' Hg.
    apply generate_network_policy_ok in Hg as (policy & v & _ & _ & _ & Hp & Hv & Hvalid & _).
    exists policy. eauto using validate_valid_acceptable.
  - intros Hrej. unfold generate_network_policy. run_agent.
    destruct (load_policy policy_data) as [policy|e] eqn:Hp; simpl; [|by eauto].
    destruct (validate policy) as [v|e] eqn:Hv; simpl; [|by eauto].
    destruct (is_valid v) eqn:Hvalid; simpl; [|by eauto].
    destruct (Hrej policy eq_refl). eauto using validate_valid_acceptable.
Qed.

Lemma create_egress_rule_shape (dest : json) (rule : egress_rule) (st st' : R) :
  _create_egress_rule resolve dest st = (Ok (Some rule), st') →
  length (rule_to rule) = 1%nat
  ∧ Forall (λ p, protocol p = "TCP") (rule_ports rule).
Proof.
  unfold _create_egress_rule. run_agent. intros Hc.
  destruct (get dest "ports" _) as [pv|]; [|discriminate].
  destruct (iter pv) as [ports|]; [|discriminate].
  assert (Forall (λ p, protocol p = "TCP") (tcp_port <$> ports)) as Hports.
  { apply Forall_fmap, Forall_forall. by intros. }
  destruct (contains_str dest "cidr") as [[]|]; try discriminate.
  - destruct (getitem dest "cidr"); [|discriminate]. by injection Hc as <- _.
  - destruct (contains_str dest "awsService") as [[]|]; try discriminate.
    destruct (getitem dest "awsService"); [|discriminate].
    destruct (lower _); [|discriminate].
    destruct (get dest "regions" _); [|discriminate].
    destruct (resolve _ _ st) as [[[|first rest]|] st1]; try discriminate.
    by injection Hc as <- _.
Qed.

Lemma steps_shape (st st' : R) (ds : list json) (os : list (option egress_rule)) :
  steps resolve st ds os st' →
  length os = length ds
  ∧ Forall (λ rule, length (rule_to rule) = 1%nat
                    ∧ Forall (λ p, protocol p = "TCP") (rule_ports rule)) (omap id os).
Proof.
  induction 1 as [|st dest o st1 ds os st2 Hc _ [IHl IHf]]; simpl; [by split|].
  split; [by rewrite IHl|].
  destruct o as [rule|]; simpl; [|done].
  constructor; [|done]. eauto using create_egress_rule_shape.
Qed.

Lemma length_omap_id {A} (os : list (option A)) : (length (omap id os) ≤ length os)%nat.
Proof.
  induction os as [|[a|] os IH]; [done|..].
  - change (omap id (Some a :: os)) with (a :: omap id os). simpl. lia.
  - change (omap id (None :: os)) with (omap id os). simpl. lia.
Qed.

(** X10.  In every NetworkPolicy that the translation returns there is
    at most one rule per destination of the policy, every rule names
    exactly one address block, and every port of a rule has protocol
    TCP. *)
Theorem generated_rules_shape (namespace : string) (policy_data policy : json)
    (ds : list json) (np : network_policy) (st st' : R) :
  load_policy policy_data = Ok policy →
  get policy "allowedDestinations" (JList []) = Ok (JList ds) →
  generate_network_policy resolve namespace policy_data st = (Ok np, st') →
  (length (spec_egress np) ≤ length ds)%nat
  ∧ Forall (λ rule, length (rule_to rule) = 1%nat
                    ∧ Forall (λ p, protocol p = "TCP") (rule_ports rule))
           (spec_egress np).
Proof.
  intros Hp Hds Hg.
  apply generate_network_policy_ok in Hg
    as (policy' & v & dv & ds' & egress & Hp' & _ & _ & Hds' & Hi & Hl & ->).
  rewrite Hp in Hp'. injection Hp' as <-.
  rewrite Hds in Hds'. injection Hds' as <-. injection Hi as <-.
  apply egress_loop_steps in Hl as (os & Hs & ->). simpl.
  destruct (steps_shape _ _ _ _ Hs) as [Hlen Hshape].
  split; [|done]. rewrite <- Hlen. apply length_omap_id.
Qed.

(** X11.  The translation does not read [defaultAction]: two payloads
    that load as accepted policies with the same destinations give the
    same NetworkPolicy, be the default action [allow] or [deny]. *)
Theorem translate_ignores_default_action (namespace : string)
    (data1 data2 policy1 policy2 : json) (v1 v2 : ValidationResult) (st : R) :
  load_policy data1 = Ok policy1 → validate policy1 = Ok v1 → is_valid v1 = true →
  load_policy data2 = Ok policy2 → validate policy2 = Ok v2 → is_valid v2 = true →
  get policy1 "allowedDestinations" (JList []) = get policy2 "allowedDestinations" (JList []) →
  generate_network_policy resolve namespace data1 st
  = generate_network_policy resolve namespace data2 st.
Proof.
  intros Hp1 Hv1 Hok1 Hp2 Hv2 Hok2 Hds.
  unfold generate_network_policy. run_agent.
  by rewrite Hp1, Hp2, Hv1, Hv2, Hok1, Hok2, Hds.
Qed.

End TranslatorExtras.

(** ** The admission gate *)

Section GateExtras.
Context `{Builtins}.

Lemma validate_configmap_missing_payload (review : json)
    (configmap data : list (string * json)) :
  document_of review = Some configmap →
  managed configmap →
  subdict configmap "data" = Some data →
  dict_get data "policy.json" = None →
  validate_configmap (Ok review)
  = Ok (create_admission_response false "Missing policy.json in ConfigMap data"
          (uid_of review), 400).
Proof.
  intros Hd Hm Hdata Hp. unfold document_of in Hd.
  destruct (request_of review) as [req|] eqn:Hr; [|discriminate]. simpl in Hd.
  unfold validate_configmap. rewrite (gate_body_request _ _ Hr).
  by rewrite (review_request_missing _ _ _ _ Hd Hm Hdata Hp).
Qed.

(** The rows of the decision table for a managed document whose
    payload is a text *)
Lemma gate_decision_table (review : json) (configmap data : list (string * json))
    (text : string) :
  document_of review = Some configmap →
  managed configmap →
  subdict configmap "data" = Some data →
  dict_get data "policy.json" = Some (JStr text) →
  validate_configmap (Ok review)
  = Ok (if is_blank text then
          (create_admission_response false "Missing policy.json in ConfigMap data"
             (uid_of review), 400)
        else
          match json_loads text with
          | Raise (JSONDecodeError m) =>
              (create_admission_response false ("Invalid JSON in policy.json: " +:+ m)
                 (uid_of review), 400)
          | Raise e =>
              (create_admission_response false
                 ("Internal validation error: " +:+ exn_str e) (uid_of review), 500)
          | Ok policy =>
              match validate policy with
              | Ok v =>
                  if is_valid v then
                    (create_admission_response true "Policy validation successful"
                       (uid_of review), 200)
                  else
                    (create_admission_response false
                       ("Policy validation failed: " +:+ join "; " (errors v))
                       (uid_of review), 400)
              | Raise e =>
                  (create_admission_response false
                     ("Internal validation error: " +:+ exn_str e) (uid_of review), 500)
              end
          end).
Proof.
  unfold document_of. intros Hd (labels & Hl & Hm) Hdata Hp.
  destruct (request_of review) as [req|] eqn:Hr; [|discriminate]. simpl in Hd.
  unfold validate_configmap. rewrite (gate_body_request _ _ Hr).
  unfold review_request, labels_of in *.
  destruct (subdict configmap "metadata") as [metadata|] eqn:Hmd; [|discriminate].
  simpl in Hl.
  rewrite (subdict_get _ _ _ Hd), bind_Ok.
  assert (get (JObj req) "operation" (JStr EmptyString)
          = Ok (default (JStr EmptyString) (dict_get req "operation"))) as -> by done.
  rewrite bind_Ok, (subdict_get _ _ _ Hmd), bind_Ok.
  assert (get (JObj metadata) "name" (JStr "unknown")
          = Ok (default (JStr "unknown") (dict_get metadata "name"))) as -> by done.
  rewrite !bind_Ok, (subdict_get _ _ _ Hl), bind_Ok.
  rewrite (subdict_get _ _ _ Hdata).
  simpl. rewrite Hm, Hp. simpl.
  destruct (is_blank text); [done|].
  destruct (json_loads text) as [policy|[]]; simpl; try done.
  destruct (validate policy) as [v|]; simpl; [|done].
  by destruct (is_valid v).
Qed.

(** X12.  A managed document whose payload is a text that is not blank
    and that [json.loads] reads as [policy] is allowed exactly when
    [policy] is acceptable.  When the validator returns errors, the
    gate denies with status 400 and a message that lists all of them,
    joined by ["; "]. *)
Theorem gate_allows_iff_acceptable (review : json) (configmap data : list (string * json))
    (text : string) (policy : json) :
  document_of review = Some configmap →
  managed configmap →
  subdict configmap "data" = Some data →
  dict_get data "policy.json" = Some (JStr text) →
  is_blank text = false →
  json_loads text = Ok policy →
  ∃ r : reply,
    validate_configmap (Ok review) = Ok r
    ∧ (allowed r.1 = true ↔ acceptable policy)
    ∧ (∀ v, validate policy = Ok v → is_valid v = false →
            r = (create_admission_response false
                   ("Policy validation failed: " +:+ join "; " (errors v))
                   (uid_of review), 400)).
Proof.
  intros Hd Hm Hdata Hp Hb Hl.
  rewrite (gate_decision_table _ _ _ _ Hd Hm Hdata Hp), Hb, Hl.
  eexists. split; [reflexivity|].
  destruct (validate policy) as [v|e] eqn:Hv.
  - destruct (is_valid v) eqn:Hvalid; simpl.
    + split; [|by intros v' [= <-]; congruence].
      split; [intros _|done]. by eapply validate_valid_acceptable.
    + split; [|by intros v' [= <-] _].
      split; [discriminate|]. intros Ha%acceptable_validate.
      rewrite Hv in Ha. injection Ha as ->. discriminate.
  - simpl. split; [|discriminate].
    split; [discriminate|]. intros Ha%acceptable_validate. congruence.
Qed.

(** X13.  A managed document whose payload text is blank is denied as
    having no payload, and one whose payload is ASCII text that is not
    blank and that [json.loads] refuses is denied with status 400 and
    a message that carries the parse error. *)
Theorem gate_denies_blank_or_unparsable (review : json)
    (configmap data : list (string * json)) (text : string) :
  document_of review = Some configmap →
  managed configmap →
  subdict configmap "data" = Some data →
  dict_get data "policy.json" = Some (JStr text) →
  (is_blank text = true →
   validate_configmap (Ok review)
   = Ok (create_admission_response false "Missing policy.json in ConfigMap data"
           (uid_of review), 400))
  ∧ (∀ m, is_ascii text = true → is_blank text = false →
          json_loads text = Raise (JSONDecodeError m) →
          validate_configmap (Ok review)
          = Ok (create_admission_response false ("Invalid JSON in policy.json: " +:+ m)
                  (uid_of review), 400)).
Proof.
  intros Hd Hm Hdata Hp.
  rewrite (gate_decision_table _ _ _ _ Hd Hm Hdata Hp).
  split; [by intros ->|]. by intros m _ -> ->.
Qed.

(** X14.  What the gate allows, the agent translates without an
    objection of its own validation: when a managed document is
    allowed, its data loads in [generate_network_policy] as an
    acceptable policy. *)
Theorem admitted_documents_load (review : json) (configmap data : list (string * json))
    (r : reply) :
  document_of review = Some configmap →
  managed configmap →
  subdict configmap "data" = Some data →
  validate_configmap (Ok review) = Ok r →
  allowed r.1 = true →
  ∃ policy, load_policy (JObj data) = Ok policy ∧ acceptable policy.
Proof.
  intros Hd Hm Hdata Hr Ha.
  destruct (dict_get data "policy.json") as [pv|] eqn:Hp.
  - destruct pv as [| | | |text| |];
      try (exfalso; revert Hr Ha; unfold document_of in Hd;
           destruct (request_of review) as [req|] eqn:Hreq; [|discriminate];
           simpl in Hd; destruct Hm as (labels & Hl & Hml);
           unfold validate_configmap; rewrite (gate_body_request _ _ Hreq);
           unfold review_request, labels_of in *;
           destruct (subdict configmap "metadata") as [metadata|] eqn:Hmd; [|discriminate];
           simpl in Hl;
           rewrite (subdict_get _ _ _ Hd), bind_Ok;
           change (get (JObj req) "operation" (JStr EmptyString))
             with (Ok (A:=json) (default (JStr EmptyString) (dict_get req "operation")));
           rewrite bind_Ok, (subdict_get _ _ _ Hmd), bind_Ok;
           change (get (JObj metadata) "name" (JStr "unknown"))
             with (Ok (A:=json) (default (JStr "unknown") (dict_get metadata "name")));
           rewrite !bind_Ok, (subdict_get _ _ _ Hl), bind_Ok, (subdict_get _ _ _ Hdata);
           simpl; rewrite Hml, Hp; simpl; intros [= <-]; discriminate).
    rewrite (gate_decision_table _ _ _ _ Hd Hm Hdata Hp) in Hr.
    destruct (is_blank text); [injection Hr as <-; discriminate|].
    destruct (json_loads text) as [policy|[]] eqn:Hl;
      try (injection Hr as <-; discriminate).
    destruct (validate policy) as [v|] eqn:Hv; [|injection Hr as <-; discriminate].
    destruct (is_valid v) eqn:Hvalid; [|injection Hr as <-; discriminate].
    exists policy. split; [|by eapply validate_valid_acceptable].
    unfold load_policy; simpl. rewrite Hp; simpl. by rewrite Hl.
  - rewrite (validate_configmap_missing_payload review configmap data Hd Hm Hdata Hp) in Hr.
    injection Hr as <-. discriminate.
Qed.

End GateExtras.

Section GateReplies.
Context `{Builtins}.

Lemma review_request_reply (req uid0 : json) (r : reply) :
  review_request req uid0 = Ok r →
  uid r.1 = uid0
  ∧ (allowed r.1 = true → status_code r.1 = 200 ∧ r.2 = 200)
  ∧ (allowed r.1 = false → status_code r.1 = 400 ∧ r.2 = 400).
Proof.
  unfold review_request. intros Hr.
  repeat match type of Hr with
         | (?m ≫= _) = _ => destruct m; simpl in Hr; [|discriminate]
         | (if ?b then _ else _) = _ => destruct b; simpl in Hr
         | match ?m with _ => _ end = _ => destruct m; simpl in Hr
         | Raise _ = Ok _ => discriminate
         | Ok _ = Ok _ => injection Hr as <-; simpl; repeat split; (done || discriminate)
         end.
Qed.

(** X15.  Every reply of the gate carries the [uid] of the request:
    the allowing ones, the denials and the internal errors alike; when
    the review has no readable request the [uid] is the empty string. *)
Theorem gate_echoes_uid (request_json : result json) :
  ∃ r : reply, validate_configmap request_json = Ok r ∧ uid r.1 = echoed_uid request_json.
Proof.
  destruct request_json as [review|e]; [|by eexists].
  unfold echoed_uid.
  destruct (request_of review) as [req|] eqn:Hr.
  - unfold validate_configmap. rewrite (gate_body_request _ _ Hr).
    destruct (review_request (JObj req) (uid_of review)) as [r|e] eqn:Hrr; simpl.
    + exists r. split; [done|]. by apply review_request_reply in Hrr as [? _].
    + by eexists.
  - unfold uid_of. rewrite Hr. unfold validate_configmap, gate_body.
    destruct review as [|[]|z|[]|s|[]|[|b kv]];
      try (simpl; by eexists).
    + simpl. destruct (z =? 0); simpl; by eexists.
    + simpl. destruct (String.eqb s EmptyString); simpl; by eexists.
    + unfold request_of, subdict in Hr.
      change (negb (truthy (JObj (b :: kv)))) with false. cbv iota.
      unfold get at 1. cbv iota.
      destruct (dict_get (b :: kv) "request") as [[]|]; try discriminate Hr;
        simpl; by eexists.
Qed.

(** X16.  In every reply of the gate the status in the body is 200
    when the request is allowed and 400 when it is denied; the HTTP
    status is 200 when it is allowed and 400 or 500 when it is denied.
    A denial for an internal error has HTTP status 500 and 400 in its
    body. *)
Theorem gate_status_coherent (request_json : result json) (r : reply) :
  validate_configmap request_json = Ok r →
  (allowed r.1 = true → status_code r.1 = 200 ∧ r.2 = 200)
  ∧ (allowed r.1 = false → status_code r.1 = 400 ∧ (r.2 = 400 ∨ r.2 = 500)).
Proof.
  unfold validate_configmap.
  destruct (gate_body request_json) as [[r0|e] uid0] eqn:Hb; simpl.
  - intros [= <-]. unfold gate_body in Hb.
    destruct request_json as [review|];
      [|injection Hb as <- _; simpl; split; [discriminate|auto]].
    destruct (negb (truthy review));
      [injection Hb as <- _; simpl; split; [discriminate|auto]|].
    destruct (get review "request" _) as [req|]; [|discriminate].
    destruct (get req "uid" _) as [u|]; [|discriminate].
    injection Hb as Hb _. apply review_request_reply in Hb as (_ & Ha & Hd).
    split; [done|]. intros Hf. destruct (Hd Hf). auto.
  - intros [= <-]. simpl. split; [discriminate|auto].
Qed.

End GateReplies.

(** ** The agent on the cluster *)

Section ReconciliationExtras.
Context `{Builtins} {R : Type}.
Variable resolve : string → json → agent R (list json).
Variable k8s : cluster.

(** X17.  [apply_network_policy] outside a dry run leaves the resolver
    alone and absorbs every [ApiException]: it raises only when the
    last call it made raised an exception of another class, and then
    it raises that exception.  It first reads the policy of the same
    name and namespace.  When the read and the patch return, the calls
    are the read and the patch; when the read raises with status 404,
    they are the read and a create; when the read raises otherwise,
    nothing is written.  A create only follows a 404, and nothing is
    ever deleted: the calls are one of four sequences. *)
Theorem apply_network_policy_calls (np : network_policy) (st : agent_state R) :
  let name := metadata_name np in
  let namespace := metadata_namespace np in
  let read := read_namespaced_network_policy name namespace in
  let patch := patch_namespaced_network_policy name namespace np in
  let create := create_namespaced_network_policy namespace np in
  ∃ before last_call,
    let calls := before ++ [last_call] in
    apply_network_policy false k8s np st
    = (absorbed (k8s (api_log st ++ before) last_call),
       {| aws_resolver := aws_resolver st; api_log := api_log st ++ calls |})
    ∧ (calls = [read] ∨ calls = [read; patch] ∨ calls = [read; create]
       ∨ calls = [read; patch; create])
    ∧ (k8s (api_log st) read = ApiReturns →
       k8s (api_log st ++ [read]) patch = ApiReturns → calls = [read; patch])
    ∧ (∀ reason, k8s (api_log st) read = ApiRaises 404 reason → calls = [read; create])
    ∧ (∀ status reason, k8s (api_log st) read = ApiRaises status reason →
                        status ≠ 404 → calls = [read])
    ∧ (∀ what, k8s (api_log st) read = ClientRaises what → calls = [read]).
Proof.
  intros name namespace read patch create.
  unfold apply_network_policy. fold name namespace read patch create. run_handler.
  destruct (k8s (api_log st) read) as [|status reason|what] eqn:Hread; simpl.
  - destruct (k8s (api_log st ++ [read]) patch) as [|status reason|what] eqn:Hpatch; simpl.
    + exists [read], patch. rewrite Hpatch, <- app_assoc. simpl.
      repeat split; auto; discriminate.
    + destruct (Z.eqb_spec status 404) as [->|Hne]; simpl.
      * exists [read; patch], create.
        replace (api_log st ++ [read; patch]) with ((api_log st ++ [read]) ++ [patch])
          by (by rewrite <- app_assoc).
        destruct (k8s ((api_log st ++ [read]) ++ [patch]) create); simpl;
          rewrite <- !app_assoc; simpl; repeat split; auto; discriminate.
      * exists [read], patch. rewrite Hpatch, <- app_assoc. simpl.
        repeat split; auto; discriminate.
    + exists [read], patch. rewrite Hpatch, <- app_assoc. simpl.
      repeat split; auto; discriminate.
  - destruct (Z.eqb_spec status 404) as [->|Hne]; simpl.
    + exists [read], create.
      destruct (k8s (api_log st ++ [read]) create); simpl;
        rewrite <- !app_assoc; simpl; repeat split; auto; try discriminate.
      all: intros status' reason' [= <- _] Hne; by destruct Hne.
    + exists [], read. rewrite app_nil_r, Hread. simpl.
      repeat split; auto; try discriminate.
      intros reason' [= -> _]. by destruct Hne.
  - exists [], read. rewrite app_nil_r, Hread. simpl.
    repeat split; auto; discriminate.
Qed.

(** [apply_network_policy] raises nothing but what the client raised
    besides [ApiException], and makes no call in a dry run. *)
Lemma apply_network_policy_outcome (dry_run : bool) (np : network_policy)
    (st : agent_state R) :
  ∃ o calls,
    apply_network_policy dry_run k8s np st
    = (o, {| aws_resolver := aws_resolver st; api_log := api_log st ++ calls |})
    ∧ (o = Returns () ∨ ∃ what, o = Throws (ClientError what))
    ∧ (dry_run = true → o = Returns () ∧ calls = [])
    ∧ (api_exceptions_only k8s → o = Returns ()).
Proof.
  unfold apply_network_policy. destruct dry_run.
  - exists (Returns ()), []. rewrite app_nil_r. destruct st. by repeat split; auto.
  - run_handler.
    repeat (match goal with
            | |- context [match k8s ?log ?c with _ => _ end] =>
                let Hk := fresh "Hk" in destruct (k8s log c) eqn:Hk; simpl
            | |- context [if ?status =? 404 then _ else _] => destruct (status =? 404); simpl
            end);
      rewrite <- ?app_assoc; eexists _, _; (split; [reflexivity|]);
      (split; [by eauto|]); (split; [discriminate|]);
      intros Honly; try done;
      match goal with Hk : _ = ClientRaises _ |- _ => by destruct (Honly _ _ _ Hk) end.
Qed.

Lemma bind_py_Ok {A B} (a : A) (f : A → handler R B) (st : agent_state R) :
  (py (Ok a) ≫= f) st = f a st.
Proof. reflexivity. Qed.

(** The event handler up to the test of the label *)
Lemma process_labels (dry_run : bool) (event_type : string)
    (kv metadata labels : list (string * json)) (st : agent_state R) :
  subdict kv "metadata" = Some metadata →
  subdict metadata "labels" = Some labels →
  process_configmap_event resolve dry_run k8s event_type (JObj kv) st
  = (if negb (is_str "managed" (default JNull (dict_get labels "egress-controller")))
     then mret ()
     else if bool_decide (event_type ∈ ["ADDED"; "MODIFIED"]) then
       except_exception
         (policy_data ← py (get (JObj kv) "data" (JObj []));
          namespace ← as_namespace (default JNull (dict_get metadata "namespace"));
          network_policy ← on_resolver
            (generate_network_policy resolve namespace policy_data);
          apply_network_policy dry_run k8s network_policy)
         (λ _, mret ())
     else if String.eqb event_type "DELETED" then
       except_api
         (if negb dry_run then
            namespace ← as_namespace (default JNull (dict_get metadata "namespace"));
            api k8s (delete_namespaced_network_policy "egress-policy-generated" namespace)
          else mret ())
         (λ _ _, mret ())
     else mret ()) st.
Proof.
  intros Hmd Hl. unfold process_configmap_event.
  rewrite (subdict_get _ _ _ Hmd), bind_py_Ok.
  change (get (JObj metadata) "name" JNull)
    with (Ok (A:=json) (default JNull (dict_get metadata "name"))).
  rewrite bind_py_Ok.
  change (get (JObj metadata) "namespace" JNull)
    with (Ok (A:=json) (default JNull (dict_get metadata "namespace"))).
  rewrite bind_py_Ok, (subdict_get _ _ _ Hl), bind_py_Ok.
  change (get (JObj labels) "egress-controller" JNull)
    with (Ok (A:=json) (default JNull (dict_get labels "egress-controller"))).
  rewrite bind_py_Ok. reflexivity.
Qed.

Lemma managed_labels (kv : list (string * json)) :
  managed kv →
  ∃ metadata labels,
    subdict kv "metadata" = Some metadata ∧ subdict metadata "labels" = Some labels
    ∧ is_str "managed" (default JNull (dict_get labels "egress-controller")) = true.
Proof.
  intros (labels & Hl & Hm). unfold labels_of in Hl.
  destruct (subdict kv "metadata") as [metadata|]; [|discriminate].
  exists metadata, labels. by rewrite Hm.
Qed.

Lemma unmanaged_labels (kv : list (string * json)) :
  unmanaged kv →
  ∃ metadata labels,
    subdict kv "metadata" = Some metadata ∧ subdict metadata "labels" = Some labels
    ∧ is_str "managed" (default JNull (dict_get labels "egress-controller")) = false.
Proof.
  intros (labels & Hl & Hm). unfold labels_of in Hl.
  destruct (subdict kv "metadata") as [metadata|]; [|discriminate].
  exists metadata, labels. repeat split; try done.
  destruct (dict_get labels "egress-controller") as [[]|]; simpl; try done.
  destruct (String.eqb_spec s "managed") as [->|]; [by destruct Hm|done].
Qed.

Lemma namespace_of_metadata (kv metadata : list (string * json)) (ns : string) :
  subdict kv "metadata" = Some metadata → namespace_of kv = Some ns →
  default JNull (dict_get metadata "namespace") = JStr ns.
Proof.
  unfold namespace_of. intros -> Hns. simpl in Hns.
  destruct (dict_get metadata "namespace") as [[]|]; try discriminate.
  by injection Hns as ->.
Qed.

(** X18.  An event on an object that does not carry the label, and an
    event of a type other than ADDED, MODIFIED and DELETED, leave the
    agent as it is: nothing is resolved, no call is made on the
    cluster, and the handler returns. *)
Theorem process_ignores (dry_run : bool) (event_type : string)
    (kv : list (string * json)) (st : agent_state R) :
  unmanaged kv ∨ (managed kv ∧ event_type ∉ ["ADDED"; "MODIFIED"; "DELETED"]) →
  process_configmap_event resolve dry_run k8s event_type (JObj kv) st = (Returns (), st).
Proof.
  intros [(metadata & labels & Hmd & Hl & Hm)%unmanaged_labels
         |[(metadata & labels & Hmd & Hl & Hm)%managed_labels Ht]];
    rewrite (process_labels _ _ _ _ _ _ Hmd Hl), Hm; simpl; [done|].
  rewrite bool_decide_eq_false_2 by set_solver.
  destruct (String.eqb_spec event_type "DELETED") as [->|]; [set_solver|done].
Qed.

(** X19.  Outside a dry run, a DELETED event on a managed object of
    namespace [ns] makes exactly one call, the deletion of
    [egress-policy-generated] in [ns], and does not use the resolver.
    A 404 and any other [ApiException] are absorbed; an exception of
    another class that the client raises leaves the handler. *)
Theorem process_deleted (kv : list (string * json)) (ns : string) (st : agent_state R) :
  managed kv → namespace_of kv = Some ns →
  let delete := delete_namespaced_network_policy "egress-policy-generated" ns in
  process_configmap_event resolve false k8s "DELETED" (JObj kv) st
  = (absorbed (k8s (api_log st) delete),
     {| aws_resolver := aws_resolver st; api_log := api_log st ++ [delete] |}).
Proof.
  intros (metadata & labels & Hmd & Hl & Hm)%managed_labels Hns delete.
  rewrite (process_labels _ _ _ _ _ _ Hmd Hl), Hm; simpl.
  rewrite (namespace_of_metadata _ _ _ Hmd Hns). run_handler.
  fold delete. by destruct (k8s _ _).
Qed.

(** X20.  An ADDED or MODIFIED event on a managed object of namespace
    [ns] translates the data of the object.  When the translation
    raises, the handler returns and no call is made on the cluster;
    when it returns a NetworkPolicy, the handler makes the calls that
    [apply_network_policy] makes on it, and returns, also when
    [apply_network_policy] raises. *)
Theorem process_added (dry_run : bool) (event_type : string)
    (kv : list (string * json)) (ns : string) (st : agent_state R) :
  managed kv → namespace_of kv = Some ns →
  event_type ∈ ["ADDED"; "MODIFIED"] →
  process_configmap_event resolve dry_run k8s event_type (JObj kv) st
  = match generate_network_policy resolve ns (default (JObj []) (dict_get kv "data"))
            (aws_resolver st) with
    | (Ok np, r) =>
        (Returns (),
         (apply_network_policy dry_run k8s np {| aws_resolver := r; api_log := api_log st |}).2)
    | (Raise e, r) => (Returns (), {| aws_resolver := r; api_log := api_log st |})
    end.
Proof.
  intros (metadata & labels & Hmd & Hl & Hm)%managed_labels Hns Ht.
  rewrite (process_labels _ _ _ _ _ _ Hmd Hl), Hm; simpl.
  rewrite (bool_decide_eq_true_2 _ Ht).
  rewrite (namespace_of_metadata _ _ _ Hmd Hns).
  unfold except_exception, mbind, handler_bind, py, on_resolver, as_namespace,
    mret, handler_ret; simpl.
  destruct (generate_network_policy resolve ns _ (aws_resolver st)) as [[np|e] r]; [|done].
  destruct (apply_network_policy_outcome dry_run np
              {| aws_resolver := r; api_log := api_log st |})
    as (o & calls & -> & [->|[what ->]] & _); done.
Qed.

(** X21.  In a dry run the event handler makes no call on the cluster,
    whatever the event and the object. *)
Theorem process_dry_run (event_type : string) (configmap : json) (st : agent_state R) :
  api_log (process_configmap_event resolve true k8s event_type configmap st).2
  = api_log st.
Proof.
  unfold process_configmap_event, apply_network_policy. run_handler.
  destruct (get configmap "metadata" _) as [metadata|]; [|done].
  destruct (get metadata "name" _); [|done].
  destruct (get metadata "namespace" _) as [namespace|]; [|done].
  destruct (get metadata "labels" _) as [labels|]; [|done].
  destruct (get labels "egress-controller" _) as [controller|]; [|done].
  destruct (negb (is_str "managed" controller)); [done|].
  destruct (bool_decide (event_type ∈ ["ADDED"; "MODIFIED"])).
  - destruct (get configmap "data" _) as [data|]; [|done].
    destruct namespace as [| | | |ns| |]; try done. run_handler.
    by destruct (generate_network_policy resolve ns data (aws_resolver st)) as [[np|e] r].
  - by destruct (String.eqb event_type "DELETED").
Qed.

(** One event on an object that the handler can read: the calls it
    makes are added at the end of the log, and it raises only what the
    deletion raised besides [ApiException]. *)
Lemma process_event_step (dry_run : bool) (event_type : string)
    (kv : list (string * json)) (st : agent_state R) :
  unmanaged kv ∨ (managed kv ∧ ∃ ns, namespace_of kv = Some ns) →
  ∃ o r calls,
    process_configmap_event resolve dry_run k8s event_type (JObj kv) st
    = (o, {| aws_resolver := r; api_log := api_log st ++ calls |})
    ∧ (o = Returns ()
       ∨ event_type = "DELETED" ∧ dry_run = false
         ∧ ∃ ns what,
             namespace_of kv = Some ns
             ∧ k8s (api_log st)
                   (delete_namespaced_network_policy "egress-policy-generated" ns)
               = ClientRaises what
             ∧ o = Throws (ClientError what)).
Proof.
  intros [(metadata & labels & Hmd & Hl & Hm)%unmanaged_labels
         |[(metadata & labels & Hmd & Hl & Hm)%managed_labels [ns Hns]]];
    rewrite (process_labels _ _ _ _ _ _ Hmd Hl), Hm; simpl.
  { exists (Returns ()), (aws_resolver st), []. rewrite app_nil_r. destruct st. by split; auto. }
  rewrite (namespace_of_metadata _ _ _ Hmd Hns).
  destruct (bool_decide (event_type ∈ ["ADDED"; "MODIFIED"])).
  - unfold except_exception, mbind, handler_bind, py, on_resolver, as_namespace,
      mret, handler_ret; simpl.
    destruct (generate_network_policy resolve ns _ (aws_resolver st)) as [[np|e] r].
    + destruct (apply_network_policy_outcome dry_run np
                  {| aws_resolver := r; api_log := api_log st |})
        as (o & calls & -> & [->|[what ->]] & _); simpl; eauto 6.
    + exists (Returns ()), r, []. rewrite app_nil_r. by split; auto.
  - destruct (String.eqb_spec event_type "DELETED") as [->|Hne]; [destruct dry_run|];
      run_handler.
    + exists (Returns ()), (aws_resolver st), []. rewrite app_nil_r. destruct st. by split; auto.
    + destruct (k8s _ _) as [| |what] eqn:Hk; eexists _, _, _; (split; [reflexivity|]);
        [by left..|].
      right. do 2 (split; [done|]). by exists ns, what.
    + exists (Returns ()), (aws_resolver st), []. rewrite app_nil_r. destruct st. by split; auto.
Qed.

(** X22.  On an object that it can read (a dict whose metadata and
    labels are dicts or absent, with a string for namespace when it is
    managed) the event handler raises in one case only: outside a dry
    run, on a DELETED event, when the client raises an exception that
    is not an [ApiException] on the deletion.  It then raises that
    exception.  In every other case it returns, whatever the event,
    the resolver and the answers of the cluster. *)
Theorem process_raises_only_on_delete (dry_run : bool) (event_type : string)
    (kv : list (string * json)) (st : agent_state R) :
  unmanaged kv ∨ (managed kv ∧ ∃ ns, namespace_of kv = Some ns) →
  ∃ o st',
    process_configmap_event resolve dry_run k8s event_type (JObj kv) st = (o, st')
    ∧ (o = Returns ()
       ∨ event_type = "DELETED" ∧ dry_run = false
         ∧ ∃ ns what,
             namespace_of kv = Some ns
             ∧ k8s (api_log st)
                   (delete_namespaced_network_policy "egress-policy-generated" ns)
               = ClientRaises what
             ∧ o = Throws (ClientError what)).
Proof.
  intros Hk.
  destruct (process_event_step dry_run event_type kv st Hk) as (o & r & calls & Hrun & Ho).
  rewrite Hrun. eauto.
Qed.

(** On a stream of objects that the handler can read the loop ends or
    is left by an exception of the client. *)
Lemma watch_loop_readable (dry_run : bool) (stream : list (string * json))
    (st : agent_state R) :
  Forall (λ event, readable event.2) stream →
  ∃ o st',
    watch_loop resolve dry_run k8s stream st = (o, st')
    ∧ (o = Returns () ∨ ∃ what, o = Throws (ClientError what))
    ∧ (api_exceptions_only k8s → o = Returns ()).
Proof.
  intros Hs. revert st. induction Hs as [|[t ob] stream (kv & Ho & Hk) _ IH]; intros st.
  - exists (Returns ()), st. by repeat split; auto.
  - simpl in Ho. subst ob. cbn [watch_loop]. unfold mbind, handler_bind. simpl.
    destruct (process_event_step dry_run t kv st Hk)
      as (o & r & calls & -> & [->|(_ & _ & ns & what & _ & Hraise & ->)]).
    + apply IH.
    + eexists _, _. split; [reflexivity|]. split; [by eauto|].
      intros Honly. by destruct (Honly _ _ _ Hraise).
Qed.

Lemma watch_loop_app (dry_run : bool) (before after : list (string * json))
    (st st1 : agent_state R) :
  watch_loop resolve dry_run k8s before st = (Returns (), st1) →
  watch_loop resolve dry_run k8s (before ++ after) st
  = watch_loop resolve dry_run k8s after st1.
Proof.
  revert st. induction before as [|[t o] before IH]; intros st; simpl.
  - by intros [= ->].
  - unfold mbind, handler_bind.
    destruct (process_configmap_event resolve dry_run k8s t o st) as [[[]|] st2];
      [|discriminate].
    apply IH.
Qed.

Lemma watch_loop_app_throws (dry_run : bool) (before after : list (string * json))
    (st st1 : agent_state R) (f : failure) :
  watch_loop resolve dry_run k8s before st = (Throws f, st1) →
  watch_loop resolve dry_run k8s (before ++ after) st = (Throws f, st1).
Proof.
  revert st. induction before as [|[t o] before IH]; intros st; simpl.
  - discriminate.
  - unfold mbind, handler_bind.
    destruct (process_configmap_event resolve dry_run k8s t o st) as [[[]|] st2];
      [apply IH|done].
Qed.


(** X24.  Outside a dry run, on a stream of events on readable
    objects that ends with a DELETED event on a managed object of
    namespace [ns], [start_watching] returns, whatever the cluster
    does.  When the client raises nothing but [ApiException], the
    last call made on the cluster is the deletion of
    [egress-policy-generated] in [ns], whatever the cluster answered
    to the calls before. *)
Theorem watch_ends_with_delete (before : list (string * json))
    (kv : list (string * json)) (ns : string) (st : agent_state R) :
  Forall (λ event, readable event.2) before →
  managed kv → namespace_of kv = Some ns →
  ∃ st',
    start_watching resolve false k8s (before ++ [("DELETED", JObj kv)]) st = (Returns (), st')
    ∧ (api_exceptions_only k8s →
       last (api_log st')
       = Some (delete_namespaced_network_policy "egress-policy-generated" ns)).
Proof.
  intros Hb (metadata & labels & Hmd & Hl & Hm)%managed_labels Hns.
  destruct (watch_loop_readable false before st Hb) as (o & st1 & H1 & Ho & Honly).
  unfold start_watching, except_exception.
  destruct Ho as [->|[what ->]].
  - rewrite (watch_loop_app _ _ _ _ _ H1). cbn [watch_loop].
    unfold mbind at 1, handler_bind at 1.
    rewrite (process_labels _ _ _ _ _ _ Hmd Hl), Hm; simpl.
    rewrite (namespace_of_metadata _ _ _ Hmd Hns). run_handler.
    destruct (k8s _ _); (eexists; split; [reflexivity|]; intros _; simpl; apply last_snoc).
  - rewrite (watch_loop_app_throws _ _ _ _ _ _ H1).
    eexists. split; [reflexivity|]. intros Hk8s. by specialize (Honly Hk8s).
Qed.

End ReconciliationExtras.

(** X25.  A fetch that fails is not remembered: after a call on a key
    that is not in the cache whose fetch fails, the next call on that
    key fetches again, whatever the clock reads. *)
Theorem resolve_retries_after_failure (self : AWSServiceResolver) (w1 w2 : world)
    (service : string) (regions : list string) :
  _cache self !! (service +:+ ":" +:+ join "," (sorted regions)) = None →
  fetch_fails (http w1) →
  ∃ r1 r2,
    resolve_service_cidrs self w1 service (JList (JStr <$> regions)) = Ok r1
    ∧ cidrs_of r1 = []
    ∧ resolve_service_cidrs (resolver_of r1) w2 service (JList (JStr <$> regions)) = Ok r2
    ∧ fetched r2 = true.
Proof.
  intros Hnone Hfail.
  destruct (fetch_fails_raises _ service (JList (JStr <$> regions)) Hfail) as [e He].
  assert (resolve_service_cidrs self w1 service (JList (JStr <$> regions))
          = Ok {| cidrs_of := []; fetched := true; resolver_of := self |}) as H1.
  { unfold resolve_service_cidrs, cache_hit.
    rewrite cache_key_strings; simpl. by rewrite Hnone, He. }
  destruct (resolve_returns self w2 service regions) as [r2 Hr2].
  eexists _, r2. split; [exact H1|]. simpl. split; [done|]. split; [done|].
  rewrite (resolve_fetches _ _ _ _ _ _ (cache_key_strings service regions) Hr2).
  by rewrite Hnone.
Qed.

(** * Sample runs of the further properties *)

Lemma validate_valid_iff_no_errors_witness :
  is_valid {| is_valid := false;
              errors := ["Destination 0: cannot specify both 'cidr' and 'awsService'"] |}
  = true
  ↔ errors {| is_valid := false;
              errors := ["Destination 0: cannot specify both 'cidr' and 'awsService'"] |}
    = [].
Proof.
  apply (@validate_valid_iff_no_errors Sample.table (policy_of [both_targets])).
  reflexivity.
Defined.

Lemma validate_accepts_iff_witness :
  @acceptable Sample.table (policy_of [s3_access; onprem; rds_access]).
Proof.
  apply (@validate_accepts_iff Sample.table). reflexivity.
Defined.

Lemma validate_errors_located_witness :
  (∃ action, "Destination 1: Invalid CIDR format: bad"
             = "Invalid defaultAction: " +:+ action)
  ∨ (∃ j dest what,
        [onprem; JObj [("cidr", JStr "bad")]] !! j = Some dest
        ∧ "Destination 1: Invalid CIDR format: bad" ∈ @destination_errors Sample.table j dest
        ∧ "Destination 1: Invalid CIDR format: bad" = destination_msg j what).
Proof.
  apply (@validate_errors_located Sample.table
           (policy_of [onprem; JObj [("cidr", JStr "bad")]])
           {| is_valid := false;
              errors := ["Destination 1: missing 'name' field";
                         "Destination 1: missing 'ports' field";
                         "Destination 1: Invalid CIDR format: bad"] |}).
  - reflexivity.
  - reflexivity.
  - simpl. do 2 right. left.
Defined.

(** a port out of range, and ports that are not a list *)
Lemma validate_ignores_port_values_witness :
  @_validate_destination Sample.table
    (JObj [("ports", JList [JInt 443]); ("name", JStr "db"); ("cidr", JStr "10.1.0.0/16")])
    0 []
  = @_validate_destination Sample.table
      (JObj [("ports", JInt 70000); ("name", JStr "db"); ("cidr", JStr "10.1.0.0/16")])
      0 [].
Proof.
  apply (@validate_ignores_port_values Sample.table).
  - intros k Hk. cbn [dict_get].
    destruct (String.eqb "ports" k) eqn:Ek; [|reflexivity].
    apply String.eqb_eq in Ek. congruence.
  - reflexivity.
Defined.

Lemma fetch_cidrs_matching_witness :
  fetch_cidrs
    (Payload (JObj [("syncToken", JStr "1700000000");
                    ("prefixes", JList (JObj <$> Scenario.entries))]))
    "s3" (JList (JStr <$> ["us-east-1"; "eu-west-1"]))
  = Ok [JStr "52.216.0.0/15"; JStr "54.231.0.0/17"].
Proof.
  destruct (fetch_cidrs_matching
              [("syncToken", JStr "1700000000");
               ("prefixes", JList (JObj <$> Scenario.entries))]
              Scenario.entries "s3" ["us-east-1"; "eu-west-1"] eq_refl eq_refl)
    as [Hfound _].
  rewrite Hfound; [reflexivity|].
  repeat constructor; by eexists.
Defined.

Lemma cache_key_permutation_witness :
  cache_key "s3" (JList (JStr <$> ["us-west-2"; "us-east-1"]))
  = cache_key "s3" (JList (JStr <$> ["us-east-1"; "us-west-2"])).
Proof.
  apply (cache_key_permutation "s3" ["us-west-2"; "us-east-1"] ["us-east-1"; "us-west-2"]).
  apply perm_swap.
Defined.

(** the second call names the regions in another order *)
Lemma resolve_then_cached_witness :
  ∃ self',
    resolve_service_cidrs new_resolver (at_time 1000 (Payload ip_ranges)) "s3"
      (JList [JStr "us-west-2"; JStr "us-east-1"])
    = Ok {| cidrs_of := [JStr "52.216.0.0/15"; JStr "54.231.0.0/17"];
            fetched := true; resolver_of := self' |}
    ∧ resolve_service_cidrs self' (at_time 4599 (NetworkError "timed out")) "s3"
        (JList [JStr "us-east-1"; JStr "us-west-2"])
      = Ok {| cidrs_of := [JStr "52.216.0.0/15"; JStr "54.231.0.0/17"];
              fetched := false; resolver_of := self' |}.
Proof.
  apply (resolve_then_cached new_resolver
           (at_time 1000 (Payload ip_ranges)) (at_time 4599 (NetworkError "timed out"))
           "s3" "s3" (JList [JStr "us-west-2"; JStr "us-east-1"])
           (JList [JStr "us-east-1"; JStr "us-west-2"]) "s3:us-east-1,us-west-2");
    reflexivity.
Defined.

(** a call for EC2 on a resolver that holds an entry for S3 *)
Lemma resolve_keeps_entries_witness :
  let self := {| _cache := {[ "s3:us-east-1" := [JStr "52.216.0.0/15"] ]};
                 _last_fetch := 1000 |} in
  ∃ r,
    resolve_service_cidrs self (at_time 9000 (Payload ip_ranges)) "ec2"
      (JList [JStr "us-east-1"]) = Ok r
    ∧ _cache (resolver_of r) !! "s3:us-east-1" = Some [JStr "52.216.0.0/15"]
    ∧ _cache (resolver_of r) !! "ec2:us-east-1" = Some (cidrs_of r).
Proof.
  intros self.
  destruct (resolve_service_cidrs self (at_time 9000 (Payload ip_ranges)) "ec2"
              (JList [JStr "us-east-1"])) as [r|e] eqn:Hr; [|by vm_compute in Hr].
  destruct (resolve_keeps_entries self (at_time 9000 (Payload ip_ranges)) "ec2"
              (JList [JStr "us-east-1"]) "ec2:us-east-1" r eq_refl Hr)
    as (Hother & _ & Hkey).
  exists r. split; [reflexivity|]. split.
  - rewrite (Hother "s3:us-east-1"); [reflexivity|discriminate].
  - destruct Hkey as [Hsame|[_ Hnew]]; [|exact Hnew].
    vm_compute in Hr. injection Hr as <-. by vm_compute in Hsame.
Defined.

Lemma translate_rejects_untouched_witness :
  ∃ e, @generate_network_policy Sample.table _ (aws_resolve worlds) "tenant-a"
         (JObj [("policy.json", JStr "invalid-json")]) fresh_agent
       = (Raise e, fresh_agent).
Proof.
  destruct (@translate_rejects_untouched Sample.table _ (aws_resolve worlds) "tenant-a"
              (JObj [("policy.json", JStr "invalid-json")]) fresh_agent) as [_ Hrej].
  apply Hrej. intros policy Hp. discriminate Hp.
Defined.

Lemma generated_rules_shape_witness :
  ∃ np st',
    @generate_network_policy Sample.table _ (aws_resolve worlds) "tenant-a"
      (data_of (policy_of [s3_access; onprem; rds_access])) fresh_agent = (Ok np, st')
    ∧ (length (spec_egress np) ≤ 3)%nat
    ∧ Forall (λ rule, length (rule_to rule) = 1%nat
                      ∧ Forall (λ p, protocol p = "TCP") (rule_ports rule))
             (spec_egress np).
Proof.
  destruct (@generate_network_policy Sample.table _ (aws_resolve worlds) "tenant-a"
              (data_of (policy_of [s3_access; onprem; rds_access])) fresh_agent)
    as [[np|e] st'] eqn:Hg; [|by vm_compute in Hg].
  exists np, st'. split; [reflexivity|].
  exact (@generated_rules_shape Sample.table _ (aws_resolve worlds) "tenant-a"
           (data_of (policy_of [s3_access; onprem; rds_access]))
           (policy_of [s3_access; onprem; rds_access])
           [s3_access; onprem; rds_access] np fresh_agent st' eq_refl eq_refl Hg).
Defined.

Lemma translate_ignores_default_action_witness :
  @generate_network_policy Scenario.table _ mock_resolve "tenant-a"
    (data_of (Scenario.allow_policy [onprem])) ()
  = @generate_network_policy Scenario.table _ mock_resolve "tenant-a"
      (data_of (policy_of [onprem])) ().
Proof.
  apply (@translate_ignores_default_action Scenario.table _ mock_resolve "tenant-a"
           (data_of (Scenario.allow_policy [onprem])) (data_of (policy_of [onprem]))
           (Scenario.allow_policy [onprem]) (policy_of [onprem])
           {| is_valid := true; errors := [] |} {| is_valid := true; errors := [] |});
    reflexivity.
Defined.

Lemma gate_allows_iff_acceptable_witness :
  ∃ r : reply,
    @validate_configmap Scenario.table
      (Ok (review_of managed_label
             (data_of (policy_of [onprem; JObj [("cidr", JStr "bad")]])))) = Ok r
    ∧ allowed r.1 = false
    ∧ status_message r.1
      = "Policy validation failed: Destination 1: missing 'name' field; "
        +:+ "Destination 1: missing 'ports' field; Destination 1: Invalid CIDR format: bad".
Proof.
  destruct (@gate_allows_iff_acceptable Scenario.table
              (review_of managed_label
                 (data_of (policy_of [onprem; JObj [("cidr", JStr "bad")]])))
              (Scenario.managed_configmap (policy_of [onprem; JObj [("cidr", JStr "bad")]]))
              [("policy.json",
                JStr (dumps (policy_of [onprem; JObj [("cidr", JStr "bad")]])))]
              (dumps (policy_of [onprem; JObj [("cidr", JStr "bad")]]))
              (policy_of [onprem; JObj [("cidr", JStr "bad")]]))
    as (r & Hr & _ & Hdeny); try reflexivity.
  { eexists. split; reflexivity. }
  exists r. split; [exact Hr|].
  rewrite (Hdeny {| is_valid := false;
                    errors := ["Destination 1: missing 'name' field";
                               "Destination 1: missing 'ports' field";
                               "Destination 1: Invalid CIDR format: bad"] |}
             eq_refl eq_refl).
  split; reflexivity.
Defined.

Lemma gate_denies_blank_or_unparsable_witness :
  @validate_configmap Scenario.table
    (Ok (review_of managed_label (JObj [("policy.json", JStr "invalid-json-here")])))
  = Ok (create_admission_response false
          "Invalid JSON in policy.json: Expecting value: line 1 column 1 (char 0)"
          (JStr "test-uid-123"), 400).
Proof.
  assert (Hm : managed (Scenario.configmap_of managed_label
                          (JObj [("policy.json", JStr "invalid-json-here")]))).
  { eexists. split; reflexivity. }
  destruct (@gate_denies_blank_or_unparsable Scenario.table
              (review_of managed_label (JObj [("policy.json", JStr "invalid-json-here")]))
              (Scenario.configmap_of managed_label
                 (JObj [("policy.json", JStr "invalid-json-here")]))
              [("policy.json", JStr "invalid-json-here")] "invalid-json-here"
              eq_refl Hm eq_refl eq_refl)
    as [_ Hparse].
  exact (Hparse "Expecting value: line 1 column 1 (char 0)" eq_refl eq_refl eq_refl).
Defined.

Lemma admitted_documents_load_witness :
  ∃ policy,
    @load_policy Scenario.table (data_of (Scenario.allow_policy [onprem])) = Ok policy
    ∧ @acceptable Scenario.table policy.
Proof.
  apply (@admitted_documents_load Scenario.table
           (review_of managed_label (data_of (Scenario.allow_policy [onprem])))
           (Scenario.managed_configmap (Scenario.allow_policy [onprem]))
           [("policy.json", JStr (dumps (Scenario.allow_policy [onprem])))]
           (create_admission_response true "Policy validation successful"
              (JStr "test-uid-123"), 200)); try reflexivity.
  eexists. split; reflexivity.
Defined.

(** a review whose request is not an object: the reply is an internal
    error with an empty [uid] *)
Lemma gate_echoes_uid_witness :
  ∃ r : reply,
    @validate_configmap Scenario.table (Ok (JObj [("request", JInt 5)])) = Ok r
    ∧ uid r.1 = JStr EmptyString.
Proof.
  exact (@gate_echoes_uid Scenario.table (Ok (JObj [("request", JInt 5)]))).
Defined.

Lemma gate_status_coherent_witness :
  let r := (create_admission_response false
              "Internal validation error: 'list' object has no attribute 'get'"
              (JStr "test-uid-123"), 500) in
  (allowed r.1 = true → status_code r.1 = 200 ∧ r.2 = 200)
  ∧ (allowed r.1 = false → status_code r.1 = 400 ∧ (r.2 = 400 ∨ r.2 = 500)).
Proof.
  apply (@gate_status_coherent Sample.table
           (Ok (review_of managed_label (data_of (JList []))))).
  reflexivity.
Defined.

(** the first policy of a namespace: the read answers 404, and the
    policy is created *)
Lemma apply_network_policy_calls_witness :
  ∃ np,
    @generate_network_policy Scenario.table _ mock_resolve "tenant-a"
      (data_of (Scenario.allow_policy [onprem])) () = (Ok np, ())
    ∧ apply_network_policy false Scenario.solo_cluster np Scenario.idle
      = (Returns (),
         {| aws_resolver := ();
            api_log := [read_namespaced_network_policy "egress-policy-generated" "tenant-a";
                        create_namespaced_network_policy "tenant-a" np] |}).
Proof.
  eexists. split; [reflexivity|].
  match goal with
  | |- apply_network_policy _ _ ?p _ = _ => set (np := p)
  end.
  destruct (apply_network_policy_calls Scenario.solo_cluster np Scenario.idle)
    as (before & last_call & Hrun & _ & _ & H404 & _).
  specialize (H404 "Not Found" eq_refl).
  rewrite Hrun, H404.
  assert (before = [read_namespaced_network_policy "egress-policy-generated" "tenant-a"]
          ∧ last_call = create_namespaced_network_policy "tenant-a" np) as [-> ->]
    by (apply app_inj_tail; exact H404).
  reflexivity.
Defined.

Lemma process_ignores_witness :
  @process_configmap_event Scenario.table _ mock_resolve false Scenario.solo_cluster "ADDED"
    (JObj (Scenario.configmap_of [("app", JStr "some-app")]
             (JObj [("config.yaml", JStr "some: config")])))
    Scenario.idle
  = (Returns (), Scenario.idle).
Proof.
  apply (@process_ignores Scenario.table). left.
  eexists. split; [reflexivity|]. discriminate.
Defined.

(** the deletion is answered with 404, which the handler absorbs *)
Lemma process_deleted_witness :
  @process_configmap_event Scenario.table _ mock_resolve false Scenario.solo_cluster "DELETED"
    (JObj (Scenario.managed_configmap (policy_of [onprem]))) Scenario.idle
  = (Returns (),
     {| aws_resolver := ();
        api_log := [delete_namespaced_network_policy "egress-policy-generated" "tenant-a"] |}).
Proof.
  apply (@process_deleted Scenario.table _ mock_resolve Scenario.solo_cluster
           (Scenario.managed_configmap (policy_of [onprem])) "tenant-a" Scenario.idle).
  - eexists. split; reflexivity.
  - reflexivity.
Defined.

(** a cluster that cannot be reached: [apply_network_policy] raises
    on the read, and the handler returns *)
Lemma process_added_witness :
  ∃ np,
    @generate_network_policy Scenario.table _ mock_resolve "tenant-a"
      (data_of (Scenario.allow_policy [onprem])) () = (Ok np, ())
    ∧ apply_network_policy false Scenario.unreachable_cluster np Scenario.idle
      = (Throws (ClientError "Max retries exceeded"),
         {| aws_resolver := ();
            api_log := [read_namespaced_network_policy "egress-policy-generated"
                          "tenant-a"] |})
    ∧ @process_configmap_event Scenario.table _ mock_resolve false
        Scenario.unreachable_cluster
        "MODIFIED" (JObj (Scenario.managed_configmap (Scenario.allow_policy [onprem])))
        Scenario.idle
      = (Returns (),
         {| aws_resolver := ();
            api_log := [read_namespaced_network_policy "egress-policy-generated"
                          "tenant-a"] |}).
Proof.
  eexists. split; [reflexivity|]. split; [reflexivity|].
  rewrite (@process_added Scenario.table _ mock_resolve Scenario.unreachable_cluster false
             "MODIFIED" (Scenario.managed_configmap (Scenario.allow_policy [onprem]))
             "tenant-a" Scenario.idle).
  - reflexivity.
  - eexists. split; reflexivity.
  - reflexivity.
  - right. left.
Defined.

Lemma process_dry_run_witness :
  api_log
    (@process_configmap_event Scenario.table _ mock_resolve true Scenario.solo_cluster
       "ADDED" (JObj (Scenario.managed_configmap (Scenario.allow_policy [onprem])))
       Scenario.idle).2
  = [].
Proof.
  exact (@process_dry_run Scenario.table _ mock_resolve Scenario.solo_cluster "ADDED"
           (JObj (Scenario.managed_configmap (Scenario.allow_policy [onprem])))
           Scenario.idle).
Defined.

(** a cluster that cannot be reached, and a deletion *)
Lemma process_raises_only_on_delete_witness :
  ∃ o st',
    @process_configmap_event Scenario.table _ mock_resolve false Scenario.unreachable_cluster
      "DELETED" (JObj (Scenario.managed_configmap (Scenario.allow_policy [onprem])))
      Scenario.idle
    = (o, st')
    ∧ (o = Returns ()
       ∨ "DELETED" = "DELETED" ∧ false = false
         ∧ ∃ ns what,
             namespace_of (Scenario.managed_configmap (Scenario.allow_policy [onprem]))
             = Some ns
             ∧ Scenario.unreachable_cluster (api_log Scenario.idle)
                 (delete_namespaced_network_policy "egress-policy-generated" ns)
               = ClientRaises what
             ∧ o = Throws (ClientError what)).
Proof.
  apply (@process_raises_only_on_delete Scenario.table). right. split.
  - eexists. split; reflexivity.
  - by exists "tenant-a".
Defined.


Lemma watch_ends_with_delete_witness :
  ∃ st',
    @start_watching Scenario.table _ mock_resolve false Scenario.solo_cluster
      [("ADDED", JObj (Scenario.managed_configmap (Scenario.allow_policy [onprem])));
       ("DELETED", JObj (Scenario.managed_configmap (Scenario.allow_policy [onprem])))]
      Scenario.idle
    = (Returns (), st')
    ∧ last (api_log st')
      = Some (delete_namespaced_network_policy "egress-policy-generated" "tenant-a").
Proof.
  assert (managed (Scenario.managed_configmap (Scenario.allow_policy [onprem]))) as Hm.
  { eexists. split; reflexivity. }
  destruct (@watch_ends_with_delete Scenario.table _ mock_resolve Scenario.solo_cluster
              [("ADDED", JObj (Scenario.managed_configmap (Scenario.allow_policy [onprem])))]
              (Scenario.managed_configmap (Scenario.allow_policy [onprem])) "tenant-a"
              Scenario.idle) as (st' & Hrun & Hlast).
  - constructor; [|constructor]. eexists. split; [reflexivity|].
    right. split; [exact Hm|by exists "tenant-a"].
  - exact Hm.
  - reflexivity.
  - exists st'. split; [exact Hrun|]. apply Hlast.
    intros log c what. unfold Scenario.solo_cluster.
    destruct c; simpl; by destruct (Scenario.present _ _ _ _).
Defined.

(** the request times out on the first call and succeeds on the second *)
Lemma resolve_retries_after_failure_witness :
  ∃ r1 r2,
    resolve_service_cidrs new_resolver (at_time 1000 (NetworkError "timed out"))
      "s3" (JList (JStr <$> ["us-east-1"])) = Ok r1
    ∧ cidrs_of r1 = []
    ∧ resolve_service_cidrs (resolver_of r1) (at_time 1001 (Payload ip_ranges))
        "s3" (JList (JStr <$> ["us-east-1"])) = Ok r2
    ∧ fetched r2 = true.
Proof.
  apply (resolve_retries_after_failure new_resolver
           (at_time 1000 (NetworkError "timed out")) (at_time 1001 (Payload ip_ranges))
           "s3" ["us-east-1"]).
  - reflexivity.
  - exact I.
Defined.
